(** * Thread stack creation on ARM

    A shallow embedding of [arch/arm/src/common/up_createstack.c]
    ([up_create_stack] and [up_stack_color]) and the properties of the
    stack geometry, the heap selection, the TLS header and the stack
    coloration that follow from it.

    Integers of the C code ([size_t], [uint32_t], [uintptr_t]) are 32-bit
    unsigned: they are modelled in [Z] with the wrap-around written out.
    The heap allocators, the release primitive, the LED hook and the debug
    log live outside this file: they are an interface ([Externals]) and
    every call to them is recorded as an [event].

    The file has two parts: the definitions (the code, its phases as
    functions, the stubs and configurations of the scenarios), then the
    lemmas and theorems. *)

From Stdlib Require Import ZArith List Bool Lia.
Import ListNotations.
Local Open Scope Z_scope.

(** ** 32-bit machine arithmetic *)

(** The value of an integer expression once stored in a [uint32_t],
    [size_t] or [uintptr_t]. *)
Definition wrap32 (x : Z) : Z := x mod 2 ^ 32.

(** ** Build configuration *)

(** The build-time switches the file tests with [#ifdef], and the constants
    it takes from headers ([nuttx/tls.h], [up_internal.h], [board.h]). *)
Record config : Type := {
  CONFIG_BUILD_PROTECTED : bool;
  CONFIG_BUILD_KERNEL : bool;
  CONFIG_MM_KERNEL_HEAP : bool;
  CONFIG_TLS : bool;
  CONFIG_DEBUG : bool;
  CONFIG_STACK_COLORATION : bool;
  (** [CONFIG_STACK_ALIGNMENT] when the configuration defines it. *)
  CONFIG_STACK_ALIGNMENT_given : option Z;
  (** [__ARM_EABI__], defined by the compiler when EABI is in use. *)
  ARM_EABI : bool;
  (** [sizeof(struct tls_info_s)], the spec's [TLS_HEADER_SIZE]. *)
  sizeof_tls_info_s : Z;
  (** The offset of the field [tl_tcb] in [struct tls_info_s]. *)
  offsetof_tl_tcb : Z;
  TLS_MAXSTACK : Z;
  TLS_STACK_ALIGN : Z;
  STACK_COLOR : Z;
  LED_STACKCREATED : Z
}.

(** [HAVE_KERNEL_HEAP] (lines 63-67). *)
Definition HAVE_KERNEL_HEAP (cfg : config) : bool :=
  (CONFIG_BUILD_PROTECTED cfg || CONFIG_BUILD_KERNEL cfg)
  && CONFIG_MM_KERNEL_HEAP cfg.

(** [CONFIG_STACK_ALIGNMENT] (lines 73-84): the configured value, else 8
    under EABI and 4 otherwise. *)
Definition CONFIG_STACK_ALIGNMENT (cfg : config) : Z :=
  match CONFIG_STACK_ALIGNMENT_given cfg with
  | Some a => a
  | None => if ARM_EABI cfg then 8 else 4
  end.

(** The stack alignment macros (lines 88-90).  [~STACK_ALIGN_MASK] is an
    [int]; it is converted to 32-bit unsigned when combined with a
    [size_t]. *)
Definition STACK_ALIGN_MASK (cfg : config) : Z := CONFIG_STACK_ALIGNMENT cfg - 1.

Definition STACK_ALIGN_DOWN (cfg : config) (a : Z) : Z :=
  Z.land a (wrap32 (Z.lnot (STACK_ALIGN_MASK cfg))).

Definition STACK_ALIGN_UP (cfg : config) (a : Z) : Z :=
  Z.land (wrap32 (a + STACK_ALIGN_MASK cfg)) (wrap32 (Z.lnot (STACK_ALIGN_MASK cfg))).

(** ** Data *)

(** The three fields of [struct tcb_s] that the file reads and writes.
    Pointers are addresses; the null pointer is 0. *)
Record tcb_s : Type := {
  stack_alloc_ptr : Z;
  adj_stack_size : Z;
  adj_stack_ptr : Z
}.

(** The thread types listed in the header comment of [up_create_stack]. *)
Inductive ttype_t : Type :=
| TCB_FLAG_TTYPE_TASK
| TCB_FLAG_TTYPE_PTHREAD
| TCB_FLAG_TTYPE_KERNEL.

Definition ttype_eqb (a b : ttype_t) : bool :=
  match a, b with
  | TCB_FLAG_TTYPE_TASK, TCB_FLAG_TTYPE_TASK => true
  | TCB_FLAG_TTYPE_PTHREAD, TCB_FLAG_TTYPE_PTHREAD => true
  | TCB_FLAG_TTYPE_KERNEL, TCB_FLAG_TTYPE_KERNEL => true
  | _, _ => false
  end.

(** The two values [up_create_stack] returns. *)
Inductive status : Type := OK | ERROR.

(** Memory, one byte per address.  Words are little-endian. *)
Definition mem : Type := Z -> Z.

Definition store8 (m : mem) (a v : Z) : mem :=
  fun x => if x =? a then v mod 256 else m x.

Definition store32 (m : mem) (a v : Z) : mem :=
  store8 (store8 (store8 (store8 m a v) (a + 1) (v / 2 ^ 8))
                 (a + 2) (v / 2 ^ 16))
         (a + 3) (v / 2 ^ 24).

Definition load32 (m : mem) (a : Z) : Z :=
  m a + 2 ^ 8 * m (a + 1) + 2 ^ 16 * m (a + 2) + 2 ^ 24 * m (a + 3).

(** [memset(s, c, n)]. *)
Fixpoint memset (m : mem) (s c : Z) (n : nat) : mem :=
  match n with
  | O => m
  | S n' => memset (store8 m s c) (s + 1) c n'
  end.

(** ** Calls that leave the file *)

Inductive heap_id : Type := KernelHeap | UserHeap.

Inductive event : Type :=
| EvAssert                                   (* a DEBUGASSERT that fired *)
| EvRelease (ttype : ttype_t)                (* up_release_stack(tcb, ttype) *)
| EvAlloc (h : heap_id) (align : option Z) (size ret : Z)
                                             (* k(u)mm_malloc / k(u)mm_memalign *)
| EvDebugLog (size : Z)                      (* sdbg("ERROR: Failed to allocate ...") *)
| EvLed (led : Z).                           (* board_autoled_on(led) *)

Definition is_release (e : event) : bool :=
  match e with EvRelease _ => true | _ => false end.

Definition is_alloc (e : event) : bool :=
  match e with EvAlloc _ _ _ _ => true | _ => false end.

(** The allocators of [nuttx/kmalloc.h] and the release primitive of
    [up_releasestack.c], over a heap state of their own.  An allocator
    returns the base of the block, or 0; [up_release_stack] may change the
    TCB it is given. *)
Class Externals (heap : Type) : Type := {
  kmm_malloc : Z -> heap -> Z * heap;
  kumm_malloc : Z -> heap -> Z * heap;
  kmm_memalign : Z -> Z -> heap -> Z * heap;
  kumm_memalign : Z -> Z -> heap -> Z * heap;
  up_release_stack : tcb_s -> ttype_t -> heap -> tcb_s * heap
}.

(** ** The state and its monad *)

Record world (heap : Type) : Type := {
  w_tcb : tcb_s;
  w_heap : heap;
  w_mem : mem
}.
Arguments w_tcb {heap} _.
Arguments w_heap {heap} _.
Arguments w_mem {heap} _.
Arguments Build_world {heap} _ _ _.

(** A computation returns a value, the new state and the calls it made. *)
Definition M (heap A : Type) : Type := world heap -> A * world heap * list event.

Definition ret {heap A} (a : A) : M heap A := fun w => (a, w, []).

Definition bind {heap A B} (m : M heap A) (f : A -> M heap B) : M heap B :=
  fun w =>
    let '(a, w1, e1) := m w in
    let '(b, w2, e2) := f a w1 in
    (b, w2, e1 ++ e2).

Notation "x <- c1 ;; c2" := (bind c1 (fun x => c2))
  (at level 61, c1 at next level, right associativity).
Notation "c1 ;; c2" := (bind c1 (fun _ => c2))
  (at level 61, right associativity).

Definition emit {heap} (e : event) : M heap unit := fun w => (tt, w, [e]).

Definition get_tcb {heap} : M heap tcb_s := fun w => (w_tcb w, w, []).

Definition put_tcb {heap} (t : tcb_s) : M heap unit :=
  fun w => (tt, Build_world t (w_heap w) (w_mem w), []).

Definition update_mem {heap} (f : mem -> mem) : M heap unit :=
  fun w => (tt, Build_world (w_tcb w) (w_heap w) (f (w_mem w)), []).

(** Assignments to the fields of [*tcb]. *)
Definition set_stack_alloc_ptr {heap} (p : Z) : M heap unit :=
  t <- get_tcb ;; put_tcb (Build_tcb_s p (adj_stack_size t) (adj_stack_ptr t)).

Definition set_adj_stack_ptr {heap} (p : Z) : M heap unit :=
  t <- get_tcb ;; put_tcb (Build_tcb_s (stack_alloc_ptr t) (adj_stack_size t) p).

Definition set_adj_stack_size {heap} (n : Z) : M heap unit :=
  t <- get_tcb ;; put_tcb (Build_tcb_s (stack_alloc_ptr t) n (adj_stack_ptr t)).

Section CreateStack.

Context {heap : Type} {ext : Externals heap}.
Variable cfg : config.

(** An allocator call: the heap moves on and the call is recorded. *)
Definition call_alloc (h : heap_id) (align : option Z) (size : Z)
    (f : heap -> Z * heap) : M heap Z :=
  fun w =>
    let '(p, hp) := f (w_heap w) in
    (p, Build_world (w_tcb w) hp (w_mem w), [EvAlloc h align size p]).

(** [up_release_stack(tcb, ttype)]. *)
Definition call_release (ttype : ttype_t) : M heap unit :=
  fun w =>
    let '(t, hp) := up_release_stack (w_tcb w) ttype (w_heap w) in
    (tt, Build_world t hp (w_mem w), [EvRelease ttype]).

(** Modelled from the spec: [DEBUGASSERT] comes from [assert.h], which is
    not among the sources.  In a debug build an assertion that does not
    hold fires, which is recorded; the statements after it are those of
    every build. *)
Definition DEBUGASSERT (f : bool) : M heap unit :=
  if CONFIG_DEBUG cfg && negb f then emit EvAssert else ret tt.

(** *** up_stack_color (lines 304-320) *)

Definition color_stkptr (stackbase : Z) : Z :=
  Z.land (wrap32 (stackbase + 3)) (wrap32 (Z.lnot 3)).

Definition color_stkend (stackbase nbytes : Z) : Z :=
  Z.land (wrap32 (stackbase + nbytes)) (wrap32 (Z.lnot 3)).

Definition color_nwords (stackbase nbytes : Z) : Z :=
  Z.shiftr (wrap32 (color_stkend stackbase nbytes - stackbase)) 2.

(** [while (nwords-- > 0) *stkptr++ = STACK_COLOR;]  The pointer is a
    32-bit one: after the last word of the address space it is back at
    0. *)
Fixpoint color_loop (nwords : nat) (stkptr : Z) (m : mem) : mem :=
  match nwords with
  | O => m
  | S n => color_loop n (wrap32 (stkptr + 4)) (store32 m stkptr (STACK_COLOR cfg))
  end.

Definition up_stack_color (stackbase nbytes : Z) (m : mem) : mem :=
  color_loop (Z.to_nat (color_nwords stackbase nbytes)) (color_stkptr stackbase) m.

(** *** up_create_stack (lines 134-294) *)

(** Lines 136-150: the size with the TLS structure added, no larger than
    [TLS_MAXSTACK]. *)
Definition tls_stack_size (stack_size : Z) : M heap Z :=
  if CONFIG_TLS cfg then
    let stack_size := wrap32 (stack_size + sizeof_tls_info_s cfg) in
    DEBUGASSERT (stack_size <=? TLS_MAXSTACK cfg) ;;
    ret (if stack_size >=? TLS_MAXSTACK cfg then TLS_MAXSTACK cfg else stack_size)
  else ret stack_size.

(** Lines 173-206: the allocation, by build and thread type. *)
Definition stack_allocate (stack_size : Z) (ttype : ttype_t) : M heap Z :=
  if CONFIG_TLS cfg then
    if HAVE_KERNEL_HEAP cfg && ttype_eqb ttype TCB_FLAG_TTYPE_KERNEL then
      call_alloc KernelHeap (Some (TLS_STACK_ALIGN cfg)) stack_size
                 (kmm_memalign (TLS_STACK_ALIGN cfg) stack_size)
    else
      call_alloc UserHeap (Some (TLS_STACK_ALIGN cfg)) stack_size
                 (kumm_memalign (TLS_STACK_ALIGN cfg) stack_size)
  else
    if HAVE_KERNEL_HEAP cfg && ttype_eqb ttype TCB_FLAG_TTYPE_KERNEL then
      call_alloc KernelHeap None stack_size (kmm_malloc stack_size)
    else
      call_alloc UserHeap None stack_size (kumm_malloc stack_size).

(** Lines 259-287: the TLS structure and the coloration.  With both
    [CONFIG_TLS] and [CONFIG_STACK_COLORATION] the source misspells two
    names ([uinptr_t], [stackbase]); they are read as [uintptr_t] and
    [stack_base]. *)
Definition stack_instrument (tcb : Z) : M heap unit :=
  t <- get_tcb ;;
  if CONFIG_TLS cfg then
    let info := stack_alloc_ptr t in
    update_mem (fun m => memset m info 0 (Z.to_nat (sizeof_tls_info_s cfg))) ;;
    update_mem (fun m => store32 m (info + offsetof_tl_tcb cfg) tcb) ;;
    if CONFIG_STACK_COLORATION cfg then
      let stack_base := wrap32 (info + sizeof_tls_info_s cfg) in
      let stack_size := wrap32 (adj_stack_size t - sizeof_tls_info_s cfg) in
      update_mem (up_stack_color stack_base stack_size)
    else ret tt
  else
    if CONFIG_STACK_COLORATION cfg then
      update_mem (up_stack_color (stack_alloc_ptr t) (adj_stack_size t))
    else ret tt.

Definition up_create_stack (tcb stack_size : Z) (ttype : ttype_t) : M heap status :=
  stack_size <- tls_stack_size stack_size ;;
  (* Is there already a stack allocated of a different size? *)
  t <- get_tcb ;;
  (if negb (stack_alloc_ptr t =? 0) && negb (adj_stack_size t =? stack_size)
   then call_release ttype
   else ret tt) ;;
  (* Do we need to allocate a new stack? *)
  t <- get_tcb ;;
  (if stack_alloc_ptr t =? 0 then
     p <- stack_allocate stack_size ttype ;;
     set_stack_alloc_ptr p ;;
     t <- get_tcb ;;
     if CONFIG_DEBUG cfg && (stack_alloc_ptr t =? 0)
     then emit (EvDebugLog stack_size)
     else ret tt
   else ret tt) ;;
  (* Did we successfully allocate a stack? *)
  t <- get_tcb ;;
  if negb (stack_alloc_ptr t =? 0) then
    let top_of_stack := wrap32 (wrap32 (stack_alloc_ptr t) + stack_size - 4) in
    let top_of_stack := STACK_ALIGN_DOWN cfg top_of_stack in
    let size_of_stack := wrap32 (top_of_stack - wrap32 (stack_alloc_ptr t) + 4) in
    set_adj_stack_ptr top_of_stack ;;
    set_adj_stack_size size_of_stack ;;
    stack_instrument tcb ;;
    emit (EvLed (LED_STACKCREATED cfg)) ;;
    ret OK
  else ret ERROR.

(** The size [up_create_stack] works with after lines 136-150, the spec's
    effective size. *)
Definition effective_size (stack_size : Z) : Z :=
  if CONFIG_TLS cfg then
    let s := wrap32 (stack_size + sizeof_tls_info_s cfg) in
    if s >=? TLS_MAXSTACK cfg then TLS_MAXSTACK cfg else s
  else stack_size.

End CreateStack.

(** ** The phases of [up_create_stack], as functions *)

Section Phases.

Context {heap : Type} {ext : Externals heap}.
Variable cfg : config.

(** Line 157: a stack is attached and its recorded size differs. *)
Definition needs_release (size : Z) (t : tcb_s) : bool :=
  negb (stack_alloc_ptr t =? 0) && negb (adj_stack_size t =? size).

(** The calls made by lines 136-150. *)
Definition assert_events (stack_size : Z) : list event :=
  if CONFIG_TLS cfg
     && (CONFIG_DEBUG cfg
         && negb (wrap32 (stack_size + sizeof_tls_info_s cfg) <=? TLS_MAXSTACK cfg))
  then [EvAssert] else [].

(** The state and the calls after lines 157-162. *)
Definition reconciled (size : Z) (ttype : ttype_t) (w : world heap)
    : world heap * list event :=
  if needs_release size (w_tcb w) then
    let '(t, hp) := up_release_stack (w_tcb w) ttype (w_heap w) in
    (Build_world t hp (w_mem w), [EvRelease ttype])
  else (w, []).

(** The allocator that lines 173-206 call, as heap, alignment and
    function. *)
Definition selected_heap (ttype : ttype_t) : heap_id :=
  if HAVE_KERNEL_HEAP cfg && ttype_eqb ttype TCB_FLAG_TTYPE_KERNEL
  then KernelHeap else UserHeap.

Definition selected_align : option Z :=
  if CONFIG_TLS cfg then Some (TLS_STACK_ALIGN cfg) else None.

Definition selected_alloc (ttype : ttype_t) (size : Z) : heap -> Z * heap :=
  match selected_heap ttype, selected_align with
  | KernelHeap, Some a => kmm_memalign a size
  | UserHeap, Some a => kumm_memalign a size
  | KernelHeap, None => kmm_malloc size
  | UserHeap, None => kumm_malloc size
  end.

(** The state and the calls after lines 166-216. *)
Definition allocated (size : Z) (ttype : ttype_t) (w : world heap)
    : world heap * list event :=
  if stack_alloc_ptr (w_tcb w) =? 0 then
    let '(p, hp) := selected_alloc ttype size (w_heap w) in
    (Build_world (Build_tcb_s p (adj_stack_size (w_tcb w)) (adj_stack_ptr (w_tcb w)))
                 hp (w_mem w),
     EvAlloc (selected_heap ttype) selected_align size p
       :: (if CONFIG_DEBUG cfg && (p =? 0) then [EvDebugLog size] else []))
  else (w, []).

(** Lines 237-257: the top of the stack and its size, from the base. *)
Definition top_of_stack (base size : Z) : Z :=
  STACK_ALIGN_DOWN cfg (wrap32 (wrap32 base + size - 4)).

Definition size_of_stack (base size : Z) : Z :=
  wrap32 (top_of_stack base size - wrap32 base + 4).

(** Lines 262-264: the TLS structure at the base of the block. *)
Definition tls_init (tcb base : Z) (m : mem) : mem :=
  store32 (memset m base 0 (Z.to_nat (sizeof_tls_info_s cfg)))
          (base + offsetof_tl_tcb cfg) tcb.

(** Lines 259-287, on the memory. *)
Definition instrumented (tcb : Z) (t : tcb_s) (m : mem) : mem :=
  match CONFIG_TLS cfg, CONFIG_STACK_COLORATION cfg with
  | false, false => m
  | false, true => up_stack_color cfg (stack_alloc_ptr t) (adj_stack_size t) m
  | true, false => tls_init tcb (stack_alloc_ptr t) m
  | true, true =>
      up_stack_color cfg
        (wrap32 (stack_alloc_ptr t + sizeof_tls_info_s cfg))
        (wrap32 (adj_stack_size t - sizeof_tls_info_s cfg))
        (tls_init tcb (stack_alloc_ptr t) m)
  end.

(** The whole call, phase by phase. *)
Definition created (tcb stack_size : Z) (ttype : ttype_t) (w : world heap)
    : status * world heap * list event :=
  let size := effective_size cfg stack_size in
  let '(w1, e1) := reconciled size ttype w in
  let '(w2, e2) := allocated size ttype w1 in
  let base := stack_alloc_ptr (w_tcb w2) in
  if base =? 0 then (ERROR, w2, assert_events stack_size ++ e1 ++ e2)
  else
    let t := Build_tcb_s base (size_of_stack base size) (top_of_stack base size) in
    (OK, Build_world t (w_heap w2) (instrumented tcb t (w_mem w2)),
     assert_events stack_size ++ e1 ++ e2 ++ [EvLed (LED_STACKCREATED cfg)]).

End Phases.

(** ** Conditions on the configuration *)

(** The alignment is a power of two that fits a 32-bit word: what the
    masks of lines 88-90 need. *)
Definition alignment_ok (cfg : config) : bool :=
  let a := CONFIG_STACK_ALIGNMENT cfg in
  (0 <? a) && (a =? 2 ^ Z.log2 a) && (a <=? 2 ^ 31).

(** The spec's [TLS_HEADER_SIZE] with TLS, and 0 without. *)
Definition tls_header_size (cfg : config) : Z :=
  if CONFIG_TLS cfg then sizeof_tls_info_s cfg else 0.

(** ** Allocator stubs and the configurations of the scenarios *)

(** A heap stub: the answers the allocators will give, in order, and null
    once they are used up. *)
Definition stub_alloc (h : list Z) : Z * list Z :=
  match h with
  | [] => (0, [])
  | p :: h' => (p, h')
  end.

(** Modelled from the spec: [up_release_stack] is defined in
    [up_releasestack.c], which is not among the sources.  After a release
    no stack is attached: [stack_alloc_ptr] is null. *)
Definition stub_release (t : tcb_s) (ttype : ttype_t) (h : list Z)
    : tcb_s * list Z :=
  (Build_tcb_s 0 (adj_stack_size t) (adj_stack_ptr t), h).

#[export] Instance stub_externals : Externals (list Z) := {|
  kmm_malloc := fun _ => stub_alloc;
  kumm_malloc := fun _ => stub_alloc;
  kmm_memalign := fun _ _ => stub_alloc;
  kumm_memalign := fun _ _ => stub_alloc;
  up_release_stack := stub_release
|}.

(** The configurations of the scenarios: a TLS structure of 16 bytes with
    [tl_tcb] first, [TLS_STACK_ALIGN] and [TLS_MAXSTACK] 2048. *)
Definition scenario (protected tls debug color eabi : bool) : config := {|
  CONFIG_BUILD_PROTECTED := protected;
  CONFIG_BUILD_KERNEL := false;
  CONFIG_MM_KERNEL_HEAP := protected;
  CONFIG_TLS := tls;
  CONFIG_DEBUG := debug;
  CONFIG_STACK_COLORATION := color;
  CONFIG_STACK_ALIGNMENT_given := None;
  ARM_EABI := eabi;
  sizeof_tls_info_s := 16;
  offsetof_tl_tcb := 0;
  TLS_MAXSTACK := 2048;
  TLS_STACK_ALIGN := 2048;
  STACK_COLOR := 0xdeadbeef;
  LED_STACKCREATED := 3
|}.

Definition eabi_build : config := scenario false false false false true.
Definition oabi_build : config := scenario false false false false false.
Definition debug_build : config := scenario false false true false true.
Definition tls_build : config := scenario false true false false true.
Definition tls_color_build : config := scenario false true false true true.
Definition protected_build : config := scenario true false true false true.

(** A TCB with no stack, a memory of zeros, and a state made of a TCB and
    the answers of the allocator stub. *)
Definition no_stack : tcb_s := Build_tcb_s 0 0 0.

Definition zero_mem : mem := fun _ => 0.

Definition start (t : tcb_s) (answers : list Z) : world (list Z) :=
  Build_world t answers zero_mem.

(** The address of the TCB in the scenarios. *)
Definition tcb_addr : Z := 0x20000100.

(** The result of a call: status, state, calls. *)
Definition status_of {heap} (x : status * world heap * list event) : status :=
  fst (fst x).

Definition world_of {heap} (x : status * world heap * list event) : world heap :=
  snd (fst x).

Definition events_of {heap} (x : status * world heap * list event) : list event :=
  snd x.

(** Scenario 1: EABI, no TLS, a task, 1024 bytes at [0x20001000]. *)
Definition scenario1 : status * world (list Z) * list event :=
  up_create_stack eabi_build tcb_addr 1024 TCB_FLAG_TTYPE_TASK
    (start no_stack [0x20001000]).

(** Scenario 3: EABI and TLS, 1024 bytes at [0x20002000]; and the same
    with the coloration. *)
Definition scenario3 : status * world (list Z) * list event :=
  up_create_stack tls_build tcb_addr 1024 TCB_FLAG_TTYPE_TASK
    (start no_stack [0x20002000]).


(** Scenario 6: the allocator fails on a TCB with no stack, debug build. *)
Definition scenario6 : status * world (list Z) * list event :=
  up_create_stack debug_build tcb_addr 1024 TCB_FLAG_TTYPE_TASK
    (start no_stack []).

(** Two equal calls without EABI, where 1024 bytes are recorded as 1024. *)
Definition twice_first : status * world (list Z) * list event :=
  up_create_stack oabi_build tcb_addr 1024 TCB_FLAG_TTYPE_TASK
    (start no_stack [0x20001000; 0x20002000]).

Definition twice_second : status * world (list Z) * list event :=
  up_create_stack oabi_build tcb_addr 1024 TCB_FLAG_TTYPE_TASK (world_of twice_first).


(** Scenario 1 on another block, 4 KiB further. *)
Definition scenario1_moved : status * world (list Z) * list event :=
  up_create_stack eabi_build tcb_addr 1024 TCB_FLAG_TTYPE_TASK
    (start no_stack [0x20002000]).

(** A request of 2 bytes under EABI. *)
Definition undersized : status * world (list Z) * list event :=
  up_create_stack eabi_build tcb_addr 2 TCB_FLAG_TTYPE_TASK
    (start no_stack [0x20001000]).


(** TLS and coloration, with a size that the rounding leaves as it is:
    1028 bytes and the 16 of the TLS structure at [0x20002000]. *)
Definition colored_first : status * world (list Z) * list event :=
  up_create_stack tls_color_build tcb_addr 1028 TCB_FLAG_TTYPE_TASK
    (start no_stack [0x20002000]).

Definition colored_second : status * world (list Z) * list event :=
  up_create_stack tls_color_build tcb_addr 1028 TCB_FLAG_TTYPE_TASK
    (world_of colored_first).



(** TLS and a request of [0xFFFFFFF8] bytes. *)
Definition tls_huge : status * world (list Z) * list event :=
  up_create_stack tls_build tcb_addr 0xFFFFFFF8 TCB_FLAG_TTYPE_TASK
    (start no_stack [0x20002000]).

(** ** Arithmetic of 32-bit words and masks *)

Lemma wrap32_range x : 0 <= wrap32 x < 2 ^ 32.
Proof. unfold wrap32. apply Z.mod_pos_bound. reflexivity. Qed.

Create HintDb machine.

#[export] Hint Resolve wrap32_range : machine.

Lemma wrap32_small x : 0 <= x < 2 ^ 32 -> wrap32 x = x.
Proof. intros H. unfold wrap32. now apply Z.mod_small. Qed.

Lemma wrap32_land x : wrap32 x = Z.land x (Z.ones 32).
Proof. unfold wrap32. rewrite Z.land_ones by lia. reflexivity. Qed.

Lemma wrap32_add_l a b : wrap32 (wrap32 a + b) = wrap32 (a + b).
Proof. unfold wrap32. apply Zplus_mod_idemp_l. Qed.

Lemma wrap32_sub_r a b : wrap32 (a - wrap32 b) = wrap32 (a - b).
Proof. unfold wrap32. apply Zminus_mod_idemp_r. Qed.

(** Masking with the complement of [2 ^ k - 1] rounds down to a multiple
    of [2 ^ k]. *)
Lemma land_lnot_mask k a :
  0 <= k <= 32 -> 0 <= a < 2 ^ 32 ->
  Z.land a (wrap32 (Z.lnot (2 ^ k - 1))) = a - a mod 2 ^ k.
Proof.
  intros Hk Ha.
  rewrite wrap32_land, (Z.land_comm (Z.lnot _)), Z.land_assoc.
  rewrite <- wrap32_land, (wrap32_small a) by assumption.
  rewrite <- Z.ldiff_land.
  replace (2 ^ k - 1) with (Z.ones k) by (rewrite Z.ones_equiv; lia).
  rewrite Z.ldiff_ones_r by lia.
  rewrite Z.shiftr_div_pow2, Z.shiftl_mul_pow2 by lia.
  pose proof (Z.div_mod a (2 ^ k)) as E.
  assert (0 < 2 ^ k) by (apply Z.pow_pos_nonneg; lia).
  lia.
Qed.

(** ** The monadic code and its phases agree *)

Ltac unfold_monad :=
  unfold up_create_stack, tls_stack_size, stack_allocate, stack_instrument,
    DEBUGASSERT, call_alloc, call_release, set_stack_alloc_ptr, set_adj_stack_ptr,
    set_adj_stack_size, update_mem, put_tcb, get_tcb, emit, bind, ret.

Ltac unfold_phases :=
  unfold created, reconciled, allocated, needs_release, assert_events,
    selected_alloc, selected_heap, selected_align, instrumented, tls_init,
    effective_size, top_of_stack, size_of_stack.

Ltac run_simpl :=
  cbn [negb andb orb fst snd app w_tcb w_heap w_mem
       stack_alloc_ptr adj_stack_size adj_stack_ptr].

(** One case split on a test of the code, or on the answer of an external
    function. *)
Ltac run_step :=
  match goal with
  | |- context [CONFIG_TLS ?c] => destruct (CONFIG_TLS c) eqn:?
  | |- context [CONFIG_DEBUG ?c] => destruct (CONFIG_DEBUG c) eqn:?
  | |- context [CONFIG_STACK_COLORATION ?c] =>
      destruct (CONFIG_STACK_COLORATION c) eqn:?
  | |- context [HAVE_KERNEL_HEAP ?c && ttype_eqb ?k ?k'] =>
      destruct (HAVE_KERNEL_HEAP c && ttype_eqb k k') eqn:?
  | |- context [?a >=? ?b] => rewrite (Z.geb_leb a b)
  | |- context [?a <=? ?b] => destruct (Z.leb_spec a b)
  | |- context [?a =? ?b] => destruct (Z.eqb_spec a b)
  | |- context [up_release_stack ?t ?k ?h] =>
      destruct (up_release_stack t k h) as [[? ? ?] ?] eqn:?
  | |- context [kmm_malloc ?s ?h] => destruct (kmm_malloc s h) eqn:?
  | |- context [kumm_malloc ?s ?h] => destruct (kumm_malloc s h) eqn:?
  | |- context [kmm_memalign ?a ?s ?h] => destruct (kmm_memalign a s h) eqn:?
  | |- context [kumm_memalign ?a ?s ?h] => destruct (kumm_memalign a s h) eqn:?
  end; run_simpl.

Ltac run_done :=
  repeat match goal with
  | H : (_, _) = (_, _) |- _ => inversion H; subst; clear H
  end;
  solve [reflexivity | lia | congruence].

Lemma up_create_stack_created {heap} {ext : Externals heap} cfg tcb r k
    (w : world heap) :
  up_create_stack cfg tcb r k w = created cfg tcb r k w.
Proof.
  unfold_monad. unfold_phases.
  destruct w as [[p s q] h m]. run_simpl.
  repeat run_step; run_done.
Qed.

(** ** Alignment *)

Lemma alignment_default cfg :
  CONFIG_STACK_ALIGNMENT_given cfg = None ->
  CONFIG_STACK_ALIGNMENT cfg = (if ARM_EABI cfg then 8 else 4)
  /\ alignment_ok cfg = true.
Proof.
  intros E. unfold alignment_ok, CONFIG_STACK_ALIGNMENT. rewrite E.
  destruct (ARM_EABI cfg); split; reflexivity.
Qed.

Lemma alignment_ok_pow2 cfg :
  alignment_ok cfg = true ->
  exists k, 0 <= k < 32 /\ CONFIG_STACK_ALIGNMENT cfg = 2 ^ k.
Proof.
  unfold alignment_ok. set (a := CONFIG_STACK_ALIGNMENT cfg).
  intros H. apply andb_true_iff in H as [H Hle].
  apply andb_true_iff in H as [Hpos Hpow].
  apply Z.ltb_lt in Hpos. apply Z.eqb_eq in Hpow. apply Z.leb_le in Hle.
  exists (Z.log2 a). split; [split|exact Hpow].
  - apply Z.log2_nonneg.
  - apply Z.log2_lt_pow2; lia.
Qed.

Lemma STACK_ALIGN_DOWN_mod cfg a :
  alignment_ok cfg = true -> 0 <= a < 2 ^ 32 ->
  STACK_ALIGN_DOWN cfg a = a - a mod CONFIG_STACK_ALIGNMENT cfg.
Proof.
  intros Hok Ha. destruct (alignment_ok_pow2 cfg Hok) as (k & Hk & E).
  unfold STACK_ALIGN_DOWN, STACK_ALIGN_MASK. rewrite E.
  apply land_lnot_mask; lia.
Qed.

Lemma round_down_multiple a n : 0 < n -> (a - a mod n) mod n = 0.
Proof.
  intros Hn. rewrite Zminus_mod_idemp_r, Z.sub_diag. apply Z.mod_0_l. lia.
Qed.

Lemma alignment_pos cfg : alignment_ok cfg = true -> 0 < CONFIG_STACK_ALIGNMENT cfg.
Proof.
  intros Hok. destruct (alignment_ok_pow2 cfg Hok) as (k & Hk & E).
  rewrite E. apply Z.pow_pos_nonneg; lia.
Qed.

(** The top of the stack is the raw top, rounded down. *)
Lemma top_of_stack_mod cfg base size :
  alignment_ok cfg = true ->
  top_of_stack cfg base size
  = wrap32 (base + size - 4) - wrap32 (base + size - 4) mod CONFIG_STACK_ALIGNMENT cfg.
Proof.
  intros Hok. unfold top_of_stack.
  rewrite STACK_ALIGN_DOWN_mod by auto with machine.
  replace (wrap32 base + size - 4) with (wrap32 base + (size - 4)) by lia.
  rewrite wrap32_add_l.
  replace (base + (size - 4)) with (base + size - 4) by lia.
  reflexivity.
Qed.

Lemma size_of_stack_wrap cfg base size :
  size_of_stack cfg base size = wrap32 (top_of_stack cfg base size - base + 4).
Proof.
  unfold size_of_stack.
  replace (top_of_stack cfg base size - wrap32 base + 4)
    with (top_of_stack cfg base size + 4 - wrap32 base) by lia.
  rewrite wrap32_sub_r. f_equal. lia.
Qed.

(** The recorded size is the effective size exactly when the raw top of
    the stack is aligned. *)
Lemma size_of_stack_fixed cfg base size :
  alignment_ok cfg = true -> 0 <= size < 2 ^ 32 ->
  size_of_stack cfg base size = size
  <-> wrap32 (base + size - 4) mod CONFIG_STACK_ALIGNMENT cfg = 0.
Proof.
  intros Hok Hs. rewrite size_of_stack_wrap, top_of_stack_mod by assumption.
  set (x := wrap32 (base + size - 4)). set (a := CONFIG_STACK_ALIGNMENT cfg).
  pose proof (alignment_pos cfg Hok) as Ha. fold a in Ha.
  assert (Ha' : a <= 2 ^ 31).
  { unfold alignment_ok in Hok. fold a in Hok.
    apply andb_true_iff in Hok as [_ Hle]. now apply Z.leb_le in Hle. }
  pose proof (Z.mod_pos_bound x a Ha) as Hm.
  assert (E : wrap32 (x - x mod a - base + 4) = wrap32 (size - x mod a)).
  { unfold x at 1. replace (wrap32 (base + size - 4) - x mod a - base + 4)
      with (wrap32 (base + size - 4) + (4 - x mod a - base)) by lia.
    rewrite wrap32_add_l. f_equal. lia. }
  rewrite E. unfold wrap32. split.
  - intros H. pose proof (Z.div_mod (size - x mod a) (2 ^ 32)) as D.
    rewrite H in D. lia.
  - intros H. rewrite H, Z.sub_0_r. apply Z.mod_small. exact Hs.
Qed.

(** ** Memory *)

Lemma store8_same m a v : store8 m a v a = v mod 256.
Proof. unfold store8. now rewrite Z.eqb_refl. Qed.

Lemma store8_other m a v x : x <> a -> store8 m a v x = m x.
Proof. intros N. unfold store8. apply Z.eqb_neq in N. now rewrite N. Qed.

Lemma store32_other m a v x : x < a \/ a + 4 <= x -> store32 m a v x = m x.
Proof. intros N. unfold store32. rewrite !store8_other by lia. reflexivity. Qed.

(** A store decides the four bytes it covers; elsewhere the byte is the
    old one. *)
Lemma store32_agree m1 m2 a v x :
  m1 x = m2 x -> store32 m1 a v x = store32 m2 a v x.
Proof.
  intros E. unfold store32, store8.
  repeat match goal with |- context [?p =? ?q] => destruct (p =? q) end;
    reflexivity || exact E.
Qed.

Lemma load32_store32 m a v : load32 (store32 m a v) a = wrap32 v.
Proof.
  unfold load32, store32.
  rewrite (store8_other _ (a + 3)), (store8_other _ (a + 2)),
    (store8_other _ (a + 1)), store8_same by lia.
  rewrite (store8_other _ (a + 3)), (store8_other _ (a + 2)), store8_same by lia.
  rewrite (store8_other _ (a + 3)), store8_same by lia.
  rewrite store8_same.
  unfold wrap32.
  change (2 ^ 32) with (2 ^ 8 * (2 ^ 8 * (2 ^ 8 * 2 ^ 8))).
  rewrite !Z.rem_mul_r by lia.
  change (2 ^ 16) with (2 ^ 8 * 2 ^ 8). change (2 ^ 24) with (2 ^ 8 * 2 ^ 8 * 2 ^ 8).
  rewrite <- !Z.div_div by lia.
  change (2 ^ 8) with 256. lia.
Qed.

Lemma memset_out n : forall m s c x,
  x < s \/ s + Z.of_nat n <= x -> memset m s c n x = m x.
Proof.
  induction n as [|n IH]; intros m s c x Hx; [reflexivity|].
  cbn [memset]. rewrite IH by lia. apply store8_other. lia.
Qed.

Lemma memset_in n : forall m s c x,
  s <= x < s + Z.of_nat n -> memset m s c n x = c mod 256.
Proof.
  induction n as [|n IH]; intros m s c x Hx; [lia|].
  cbn [memset]. destruct (Z.eq_dec x s) as [->|N].
  - rewrite memset_out by lia. apply store8_same.
  - apply IH. lia.
Qed.

Lemma store32_inside m1 m2 a v x :
  a <= x < a + 4 -> store32 m1 a v x = store32 m2 a v x.
Proof.
  intros Hx. unfold store32, store8.
  destruct (Z.eqb_spec x (a + 3)); [reflexivity|].
  destruct (Z.eqb_spec x (a + 2)); [reflexivity|].
  destruct (Z.eqb_spec x (a + 1)); [reflexivity|].
  destruct (Z.eqb_spec x a); [reflexivity|lia].
Qed.

(** The coloration loop writes upwards from [stkptr], one word after the
    other; as long as it stays below the end of the address space it
    changes nothing else. *)
Lemma color_loop_out cfg n : forall p m x,
  0 <= p -> p + 4 * Z.of_nat n <= 2 ^ 32 ->
  x < p \/ p + 4 * Z.of_nat n <= x -> color_loop cfg n p m x = m x.
Proof.
  induction n as [|n IH]; intros p m x Hp Hfit Hx; [reflexivity|].
  cbn [color_loop]. destruct n as [|n'].
  - cbn [color_loop]. apply store32_other. lia.
  - rewrite wrap32_small by lia. rewrite IH by lia. apply store32_other. lia.
Qed.

(** A store of a word at an aligned address leaves the other aligned
    words as they are. *)
Lemma load32_store32_other m q v a :
  q mod 4 = 0 -> a mod 4 = 0 -> q <> a ->
  load32 (store32 m q v) a = load32 m a.
Proof.
  intros Hq Ha N.
  assert (a + 4 <= q \/ q + 4 <= a) by (Z.div_mod_to_equations; lia).
  unfold load32. rewrite !store32_other by lia. reflexivity.
Qed.

Lemma wrap32_aligned p : p mod 4 = 0 -> wrap32 (p + 4) mod 4 = 0.
Proof.
  intros Hp. unfold wrap32. change (2 ^ 32) with 4294967296.
  Z.div_mod_to_equations. lia.
Qed.

(** A word that holds the color keeps it, wherever the loop runs. *)
Lemma color_loop_keeps_word cfg n : forall p m a,
  p mod 4 = 0 -> a mod 4 = 0 ->
  load32 m a = wrap32 (STACK_COLOR cfg) ->
  load32 (color_loop cfg n p m) a = wrap32 (STACK_COLOR cfg).
Proof.
  induction n as [|n IH]; intros p m a Hp Ha E; [exact E|].
  cbn [color_loop]. apply IH; [now apply wrap32_aligned|exact Ha|].
  destruct (Z.eq_dec p a) as [->|N].
  - apply load32_store32.
  - rewrite load32_store32_other by assumption. exact E.
Qed.

(** The loop leaves the color in each of its words, at the 32-bit address
    of the word. *)
Lemma color_loop_word_wrap cfg n : forall p m i,
  p mod 4 = 0 -> 0 <= p < 2 ^ 32 -> 0 <= i < Z.of_nat n ->
  load32 (color_loop cfg n p m) (wrap32 (p + 4 * i)) = wrap32 (STACK_COLOR cfg).
Proof.
  induction n as [|n IH]; intros p m i Hp Hr Hi; [lia|].
  cbn [color_loop]. destruct (Z.eq_dec i 0) as [->|N].
  - replace (p + 4 * 0) with p by lia. rewrite (wrap32_small p) by assumption.
    apply color_loop_keeps_word; [now apply wrap32_aligned|exact Hp|].
    apply load32_store32.
  - replace (wrap32 (p + 4 * i)) with (wrap32 (wrap32 (p + 4) + 4 * (i - 1)))
      by (rewrite wrap32_add_l; f_equal; lia).
    apply IH; [now apply wrap32_aligned|apply wrap32_range|lia].
Qed.

Lemma color_loop_word cfg n : forall p m i,
  p mod 4 = 0 -> 0 <= p -> p + 4 * Z.of_nat n <= 2 ^ 32 ->
  0 <= i < Z.of_nat n ->
  load32 (color_loop cfg n p m) (p + 4 * i) = wrap32 (STACK_COLOR cfg).
Proof.
  intros p m i Hp H0 Hfit Hi.
  rewrite <- (wrap32_small (p + 4 * i)) by lia.
  apply color_loop_word_wrap; assumption || lia.
Qed.

(** What the loop does to a byte does not depend on the memory: it
    either stores the byte of the color that belongs to the address, or
    leaves the byte alone. *)
Lemma color_loop_shape cfg n : forall p,
  p mod 4 = 0 ->
  exists W : Z -> bool, forall m x,
    color_loop cfg n p m x
    = if W x then store32 (fun _ => 0) (x - x mod 4) (STACK_COLOR cfg) x else m x.
Proof.
  induction n as [|n IH]; intros p Hp.
  - exists (fun _ => false). reflexivity.
  - destruct (IH (wrap32 (p + 4)) (wrap32_aligned p Hp)) as [W HW].
    exists (fun x => W x || ((p <=? x) && (x <? p + 4))).
    intros m x. cbn [color_loop]. rewrite HW.
    destruct (W x); [reflexivity|]. cbn [orb].
    destruct (Z.leb_spec p x) as [L|L];
      [destruct (Z.ltb_spec x (p + 4)) as [U|U]|]; cbn [andb].
    + replace (x - x mod 4) with p by (Z.div_mod_to_equations; lia).
      apply store32_inside. lia.
    + apply store32_other. lia.
    + apply store32_other. lia.
Qed.

(** ** The bounds of the coloration *)

Lemma round_down_4 a :
  0 <= a < 2 ^ 32 -> Z.land a (wrap32 (Z.lnot 3)) = a - a mod 4.
Proof. intros Ha. apply (land_lnot_mask 2 a); lia. Qed.

(** [stkptr] is a word-aligned 32-bit address. *)
Lemma color_stkptr_aligned base :
  color_stkptr base mod 4 = 0 /\ 0 <= color_stkptr base < 2 ^ 32.
Proof.
  unfold color_stkptr. rewrite round_down_4 by apply wrap32_range.
  pose proof (wrap32_range (base + 3)). Z.div_mod_to_equations. lia.
Qed.

(** When [base] is word-aligned, or the region reaches the next word
    boundary, the loop writes the words between the first boundary from
    [base] on and the last boundary up to [base + nbytes], and nothing
    else. *)
Lemma stack_color_in_bounds cfg base nbytes m :
  0 <= base -> 0 <= nbytes -> base + nbytes < 2 ^ 32 ->
  base mod 4 = 0 \/ 4 - base mod 4 <= nbytes ->
  let first := color_stkptr base in
  let last := color_stkend base nbytes in
  base <= first < base + 4 /\ first mod 4 = 0
  /\ base + nbytes - 4 < last <= base + nbytes /\ last mod 4 = 0
  /\ first <= last
  /\ color_nwords base nbytes = (last - first) / 4
  /\ (forall x, x < first \/ last <= x ->
        up_stack_color cfg base nbytes m x = m x)
  /\ (forall i, 0 <= i < (last - first) / 4 ->
        load32 (up_stack_color cfg base nbytes m) (first + 4 * i)
        = wrap32 (STACK_COLOR cfg)).
Proof.
  intros Hb Hn Hhi Hreach. cbv zeta.
  assert (Hb3 : base + 3 < 2 ^ 32) by (Z.div_mod_to_equations; lia).
  assert (E1 : color_stkptr base = base + 3 - (base + 3) mod 4).
  { unfold color_stkptr. rewrite (wrap32_small (base + 3)) by lia.
    apply round_down_4. lia. }
  assert (E2 : color_stkend base nbytes = base + nbytes - (base + nbytes) mod 4).
  { unfold color_stkend. rewrite (wrap32_small (base + nbytes)) by lia.
    apply round_down_4. lia. }
  assert (Hle : color_stkptr base <= color_stkend base nbytes).
  { rewrite E1, E2. Z.div_mod_to_equations. lia. }
  assert (E3 : color_nwords base nbytes
               = (color_stkend base nbytes - color_stkptr base) / 4).
  { unfold color_nwords. rewrite Z.shiftr_div_pow2 by lia.
    rewrite wrap32_small by (rewrite E1, E2 in *; Z.div_mod_to_equations; lia).
    change (2 ^ 2) with 4. rewrite E1, E2 in *. Z.div_mod_to_equations. lia. }
  assert (E4 : color_stkptr base + 4 * Z.of_nat (Z.to_nat (color_nwords base nbytes))
               = color_stkend base nbytes).
  { rewrite E3, Z2Nat.id by (apply Z.div_pos; lia).
    rewrite E1, E2 in *. Z.div_mod_to_equations. lia. }
  split; [rewrite E1; Z.div_mod_to_equations; lia|].
  split; [rewrite E1; Z.div_mod_to_equations; lia|].
  split; [rewrite E2; Z.div_mod_to_equations; lia|].
  split; [rewrite E2; Z.div_mod_to_equations; lia|].
  split; [exact Hle|]. split; [exact E3|]. split.
  - intros x Hx. unfold up_stack_color.
    apply color_loop_out; rewrite ?E4; rewrite ?E1, ?E2 in *;
      Z.div_mod_to_equations; lia.
  - intros i Hi. unfold up_stack_color.
    apply color_loop_word; rewrite ?E4.
    + rewrite E1. Z.div_mod_to_equations. lia.
    + rewrite E1. Z.div_mod_to_equations. lia.
    + rewrite E2. Z.div_mod_to_equations. lia.
    + rewrite E3, Z2Nat.id by (apply Z.div_pos; lia). exact Hi.
Qed.


(** A loop of at least one word writes its first word at [stkptr]. *)
Lemma stack_color_first_word cfg base nbytes m :
  0 < color_nwords base nbytes ->
  load32 (up_stack_color cfg base nbytes m) (color_stkptr base)
  = wrap32 (STACK_COLOR cfg).
Proof.
  intros Hpos. unfold up_stack_color.
  destruct (color_stkptr_aligned base) as [Ha Hr].
  rewrite <- (wrap32_small (color_stkptr base)) at 2 by exact Hr.
  replace (color_stkptr base) with (color_stkptr base + 4 * 0) at 2 by lia.
  apply color_loop_word_wrap; [exact Ha|exact Hr|rewrite Z2Nat.id; lia].
Qed.

(** ** What a call does, phase by phase *)

Section Runs.

Context {heap : Type} {ext : Externals heap}.
Variable cfg : config.

(** The shape of the state after a call that returns [OK]. *)
Lemma created_ok tcb r k (w w' : world heap) evs :
  up_create_stack cfg tcb r k w = (OK, w', evs) ->
  let base := stack_alloc_ptr (w_tcb w') in
  let size := effective_size cfg r in
  base <> 0
  /\ adj_stack_ptr (w_tcb w') = top_of_stack cfg base size
  /\ adj_stack_size (w_tcb w') = size_of_stack cfg base size.
Proof.
  rewrite up_create_stack_created. unfold created.
  destruct (reconciled (effective_size cfg r) k w) as [w1 e1].
  destruct (allocated cfg (effective_size cfg r) k w1) as [w2 e2].
  destruct (Z.eqb_spec (stack_alloc_ptr (w_tcb w2)) 0) as [E|E];
    intros H; inversion H; subst; clear H.
  cbn. auto.
Qed.

Lemma assert_events_no_alloc r e :
  In e (assert_events cfg r) -> is_alloc e = false /\ is_release e = false.
Proof.
  unfold assert_events.
  destruct (CONFIG_TLS cfg && _); cbn; intros E; [destruct E as [<-|[]]|destruct E].
  split; reflexivity.
Qed.

Lemma reconciled_events size k (w w1 : world heap) e1 :
  reconciled size k w = (w1, e1) ->
  (e1 = [] /\ w1 = w /\ needs_release size (w_tcb w) = false)
  \/ (e1 = [EvRelease k] /\ needs_release size (w_tcb w) = true
      /\ w1 = Build_world (fst (up_release_stack (w_tcb w) k (w_heap w)))
                          (snd (up_release_stack (w_tcb w) k (w_heap w)))
                          (w_mem w)).
Proof.
  unfold reconciled. destruct (needs_release size (w_tcb w)).
  - destruct (up_release_stack (w_tcb w) k (w_heap w)) as [t hp].
    intros E. inversion E; subst. right. auto.
  - intros E. inversion E; subst. left. auto.
Qed.

Lemma allocated_events size k (w w2 : world heap) e2 :
  allocated cfg size k w = (w2, e2) ->
  (e2 = [] /\ w2 = w /\ stack_alloc_ptr (w_tcb w) <> 0)
  \/ (exists p log,
        e2 = EvAlloc (selected_heap cfg k) (selected_align cfg) size p :: log
        /\ log = (if CONFIG_DEBUG cfg && (p =? 0) then [EvDebugLog size] else [])
        /\ stack_alloc_ptr (w_tcb w) = 0
        /\ selected_alloc cfg k size (w_heap w) = (p, w_heap w2)
        /\ w_tcb w2 = Build_tcb_s p (adj_stack_size (w_tcb w)) (adj_stack_ptr (w_tcb w))
        /\ w_mem w2 = w_mem w).
Proof.
  unfold allocated. destruct (Z.eqb_spec (stack_alloc_ptr (w_tcb w)) 0) as [E|E].
  - destruct (selected_alloc cfg k size (w_heap w)) as [p hp].
    intros H. inversion H; subst. right. exists p. eexists.
    repeat split; reflexivity || assumption.
  - intros H. inversion H; subst. left. auto.
Qed.

(** The state and the calls of a run, phase by phase. *)
Lemma created_inv tcb r k (w w' : world heap) st evs :
  up_create_stack cfg tcb r k w = (st, w', evs) ->
  exists w1 e1 w2 e2,
    reconciled (effective_size cfg r) k w = (w1, e1)
    /\ allocated cfg (effective_size cfg r) k w1 = (w2, e2)
    /\ stack_alloc_ptr (w_tcb w') = stack_alloc_ptr (w_tcb w2)
    /\ w_heap w' = w_heap w2
    /\ ((st = ERROR /\ w' = w2 /\ stack_alloc_ptr (w_tcb w2) = 0
         /\ evs = assert_events cfg r ++ e1 ++ e2)
        \/ (st = OK /\ stack_alloc_ptr (w_tcb w2) <> 0
            /\ evs = assert_events cfg r ++ e1 ++ e2 ++ [EvLed (LED_STACKCREATED cfg)])).
Proof.
  rewrite up_create_stack_created. unfold created.
  destruct (reconciled (effective_size cfg r) k w) as [w1 e1].
  destruct (allocated cfg (effective_size cfg r) k w1) as [w2 e2] eqn:Hall.
  intros Hrun. exists w1, e1, w2, e2.
  split; [reflexivity|]. split; [exact Hall|]. clear Hall.
  destruct (Z.eqb_spec (stack_alloc_ptr (w_tcb w2)) 0) as [E|E];
    inversion Hrun; subst; clear Hrun; cbn [w_tcb w_heap stack_alloc_ptr].
  - do 2 (split; [reflexivity|]). left. auto.
  - do 2 (split; [reflexivity|]). right. auto.
Qed.

Lemma selected_heap_kernel k :
  HAVE_KERNEL_HEAP cfg = true -> k = TCB_FLAG_TTYPE_KERNEL ->
  selected_heap cfg k = KernelHeap.
Proof. intros E ->. unfold selected_heap. rewrite E. reflexivity. Qed.

Lemma selected_heap_user k :
  HAVE_KERNEL_HEAP cfg = false \/ k = TCB_FLAG_TTYPE_TASK \/ k = TCB_FLAG_TTYPE_PTHREAD ->
  selected_heap cfg k = UserHeap.
Proof.
  unfold selected_heap. intros [E|[->| ->]].
  - rewrite E. reflexivity.
  - rewrite andb_false_r. reflexivity.
  - rewrite andb_false_r. reflexivity.
Qed.

(** The allocation events of a run: at most one, made by the selected
    allocator on the heap left by the reconciliation, and its answer
    becomes [stack_alloc_ptr]. *)
Lemma alloc_event_inv tcb r k (w w' : world heap) st evs :
  up_create_stack cfg tcb r k w = (st, w', evs) ->
  let S := effective_size cfg r in
  (length (filter is_alloc evs) <= 1)%nat
  /\ forall hp al sz p, In (EvAlloc hp al sz p) evs ->
       hp = selected_heap cfg k /\ al = selected_align cfg /\ sz = S
       /\ p = stack_alloc_ptr (w_tcb w')
       /\ selected_alloc cfg k S (w_heap (fst (reconciled S k w))) = (p, w_heap w').
Proof.
  intros Hrun. cbv zeta.
  destruct (created_inv tcb r k w w' st evs Hrun)
    as (w1 & e1 & w2 & e2 & Hrec & Hall & Hptr & Hheap & Hevs).
  rewrite Hrec. cbn [fst].
  assert (Hin : forall e, In e evs -> is_alloc e = true -> In e e2).
  { intros e He Ha.
    assert (He' : In e (assert_events cfg r ++ e1 ++ e2 ++ [EvLed (LED_STACKCREATED cfg)])).
    { destruct Hevs as [(_ & _ & _ & ->)|(_ & _ & ->)]; [|exact He].
      rewrite !in_app_iff in *. tauto. }
    rewrite !in_app_iff in He'. destruct He' as [H|[H|[H|H]]].
    - apply assert_events_no_alloc in H. destruct H; congruence.
    - destruct (reconciled_events _ _ _ _ _ Hrec) as [(-> & _)|(-> & _)];
        [destruct H|destruct H as [<-|[]]; discriminate].
    - exact H.
    - destruct H as [<-|[]]. discriminate. }
  assert (Hfil : filter is_alloc evs = filter is_alloc e2).
  { assert (F0 : filter is_alloc (assert_events cfg r) = []).
    { unfold assert_events. destruct (CONFIG_TLS cfg && _); reflexivity. }
    assert (F1 : filter is_alloc e1 = []).
    { destruct (reconciled_events _ _ _ _ _ Hrec) as [(-> & _)|(-> & _)]; reflexivity. }
    destruct Hevs as [(_ & _ & _ & ->)|(_ & _ & ->)];
      rewrite !filter_app, F0, F1; cbn; [reflexivity|apply app_nil_r]. }
  destruct (allocated_events _ _ _ _ _ Hall)
    as [(-> & _)|(p0 & log & -> & Hlog & _ & Hsel & Htcb & _)].
  - split; [rewrite Hfil; cbn; lia|].
    intros hp al sz p H. destruct (Hin _ H eq_refl).
  - split.
    { rewrite Hfil, Hlog. cbn. destruct (CONFIG_DEBUG cfg && (p0 =? 0)); cbn; lia. }
    intros hp al sz p H. apply Hin in H; [|reflexivity].
    destruct H as [H|H];
      [|rewrite Hlog in H; destruct (CONFIG_DEBUG cfg && (p0 =? 0));
        [destruct H as [H|[]]; discriminate|destruct H]].
    inversion H; subst hp al sz p0; clear H.
    rewrite Hptr, Htcb, Hheap. cbn [stack_alloc_ptr]. auto.
Qed.

(** The run on a TCB that holds a stack of the effective size. *)
Lemma kept_block tcb r k (w : world heap) :
  stack_alloc_ptr (w_tcb w) <> 0 ->
  adj_stack_size (w_tcb w) = effective_size cfg r ->
  let B := stack_alloc_ptr (w_tcb w) in
  let S := effective_size cfg r in
  let t := Build_tcb_s B (size_of_stack cfg B S) (top_of_stack cfg B S) in
  up_create_stack cfg tcb r k w
  = (OK, Build_world t (w_heap w) (instrumented cfg tcb t (w_mem w)),
     assert_events cfg r ++ [EvLed (LED_STACKCREATED cfg)]).
Proof.
  intros Hptr Hsize. cbv zeta.
  rewrite up_create_stack_created. unfold created, reconciled, needs_release.
  rewrite Hsize, Z.eqb_refl, andb_false_r.
  unfold allocated.
  apply Z.eqb_neq in Hptr. rewrite Hptr. cbn [w_tcb w_heap w_mem]. rewrite Hptr.
  reflexivity.
Qed.

Lemma assert_events_existsb r f tl :
  f EvAssert = false ->
  existsb f (assert_events cfg r ++ tl) = existsb f tl.
Proof.
  intros H. unfold assert_events.
  destruct (CONFIG_TLS cfg && _); cbn; rewrite ?H; reflexivity.
Qed.

(** Neither the release nor the allocation writes to the memory; after a
    successful call the memory is the old one, instrumented. *)
Lemma created_mem tcb r k (w w' : world heap) evs :
  up_create_stack cfg tcb r k w = (OK, w', evs) ->
  w_mem w' = instrumented cfg tcb (w_tcb w') (w_mem w).
Proof.
  rewrite up_create_stack_created. unfold created.
  destruct (reconciled (effective_size cfg r) k w) as [w1 e1] eqn:Hrec.
  destruct (allocated cfg (effective_size cfg r) k w1) as [w2 e2] eqn:Hall.
  assert (M1 : w_mem w1 = w_mem w).
  { destruct (reconciled_events _ _ _ _ _ Hrec) as [(_ & -> & _)|(_ & _ & ->)];
      reflexivity. }
  assert (M2 : w_mem w2 = w_mem w1).
  { destruct (allocated_events _ _ _ _ _ Hall)
      as [(_ & -> & _)|(p & log & _ & _ & _ & _ & _ & M)]; [reflexivity|exact M]. }
  destruct (stack_alloc_ptr (w_tcb w2) =? 0); intros H; inversion H; subst.
  cbn [w_mem w_tcb]. rewrite M2, M1. reflexivity.
Qed.





End Runs.

(** ** The claims about [up_create_stack] *)

Section Claims.

Context {heap : Type} {ext : Externals heap}.
Variable cfg : config.

(** C1, amended.  On every successful call, with [S] the effective size
    and [B] the base of the block: the recorded stack pointer is the
    32-bit address [B + S - 4] rounded down to the stack alignment, the
    recorded size is that pointer minus [B] plus 4 in 32-bit unsigned
    arithmetic, and the pointer is a multiple of the alignment (8 under
    EABI, else 4, unless configured).  For a block inside the address
    space the pointer is the integer [B + S - 4] rounded down, and when
    [S] is at least the alignment less one the recorded size is the
    integer pointer minus [B] plus 4. *)
Theorem create_stack_geometry tcb r k (w w' : world heap) evs :
  alignment_ok cfg = true ->
  up_create_stack cfg tcb r k w = (OK, w', evs) ->
  let B := stack_alloc_ptr (w_tcb w') in
  let S := effective_size cfg r in
  let A := CONFIG_STACK_ALIGNMENT cfg in
  let raw_top := wrap32 (B + S - 4) in
  adj_stack_ptr (w_tcb w') = raw_top - raw_top mod A
  /\ adj_stack_size (w_tcb w') = wrap32 (adj_stack_ptr (w_tcb w') - B + 4)
  /\ adj_stack_ptr (w_tcb w') mod A = 0
  /\ (CONFIG_STACK_ALIGNMENT_given cfg = None -> A = if ARM_EABI cfg then 8 else 4)
  /\ (0 <= B -> 4 <= B + S -> B + S <= 2 ^ 32 ->
      adj_stack_ptr (w_tcb w') = (B + S - 4) - (B + S - 4) mod A
      /\ (A - 1 <= S -> adj_stack_size (w_tcb w') = adj_stack_ptr (w_tcb w') - B + 4)).
Proof.
  intros Hok Hrun. destruct (created_ok cfg _ _ _ _ _ _ Hrun) as (Hnz & Hptr & Hsize).
  cbv zeta. rewrite Hsize, size_of_stack_wrap, <- Hptr.
  rewrite top_of_stack_mod in Hptr by assumption.
  pose proof (alignment_pos cfg Hok) as Hpos.
  split; [exact Hptr|]. split; [reflexivity|]. split; [|split].
  - rewrite Hptr. now apply round_down_multiple.
  - intros E. apply (alignment_default cfg E).
  - intros HB Hlo Hhi. rewrite wrap32_small in Hptr by lia.
    pose proof (Z.mod_pos_bound
                  (stack_alloc_ptr (w_tcb w') + effective_size cfg r - 4)
                  (CONFIG_STACK_ALIGNMENT cfg) Hpos) as Hm.
    split; [exact Hptr|]. intros HS. apply wrap32_small. lia.
Qed.

(** C2, amended.  In every call in which the allocator returns null, the
    call returns [ERROR] and nothing is released after the allocation
    failed; the debug log line follows in a debug build.  On a TCB with no
    stack attached no TCB field changes and [up_release_stack] is not
    called.  On a TCB that holds a stack, the recorded size differs from
    the effective size, [up_release_stack] is called once, before the
    allocation, and the TCB at return is the one it left. *)
Theorem create_stack_alloc_failure tcb r k (w w' : world heap) st evs :
  up_create_stack cfg tcb r k w = (st, w', evs) ->
  (exists hp al sz, In (EvAlloc hp al sz 0) evs) ->
  let S := effective_size cfg r in
  let t0 := w_tcb w in
  let log := if CONFIG_DEBUG cfg then [EvDebugLog S] else [] in
  st = ERROR
  /\ (stack_alloc_ptr t0 = 0 ->
      w_tcb w' = t0
      /\ existsb is_release evs = false
      /\ exists hp al, evs = assert_events cfg r ++ EvAlloc hp al S 0 :: log)
  /\ (stack_alloc_ptr t0 <> 0 ->
      adj_stack_size t0 <> S
      /\ w_tcb w' = fst (up_release_stack t0 k (w_heap w))
      /\ exists hp al,
           evs = assert_events cfg r ++ EvRelease k :: EvAlloc hp al S 0 :: log).
Proof.
  intros Hrun (hp & al & sz & Hin). cbv zeta.
  destruct (alloc_event_inv cfg tcb r k w w' st evs Hrun) as [_ Hev].
  destruct (Hev hp al sz 0 Hin) as (_ & _ & _ & Hnull & _).
  destruct (created_inv cfg tcb r k w w' st evs Hrun)
    as (w1 & e1 & w2 & e2 & Hrec & Hall & Hp & _ & Hevs).
  destruct Hevs as [(-> & Hw & _ & ->)|(_ & Hnz & _)]; [|congruence].
  split; [reflexivity|].
  (* the allocation event is the one of the allocation phase *)
  assert (Hin2 : In (EvAlloc hp al sz 0) e2).
  { rewrite !in_app_iff in Hin. destruct Hin as [H|[H|H]]; [| |exact H].
    - apply assert_events_no_alloc in H. destruct H; discriminate.
    - destruct (reconciled_events _ _ _ _ _ Hrec) as [(-> & _)|(-> & _)];
        [destruct H|destruct H as [H|[]]; discriminate]. }
  destruct (allocated_events cfg _ _ _ _ _ Hall)
    as [(-> & _)|(p & log & -> & Hlog & Hz1 & _ & Htcb & _)]; [destruct Hin2|].
  assert (Ep : p = 0) by (rewrite Hw, Htcb in Hnull; cbn in Hnull; congruence).
  subst p. rewrite Z.eqb_refl, andb_true_r in Hlog. subst log.
  assert (Et : w_tcb w' = w_tcb w1).
  { rewrite Hw, Htcb, <- Hz1. destruct (w_tcb w1); reflexivity. }
  destruct (reconciled_events _ _ _ _ _ Hrec) as [(-> & -> & Hn)|(-> & Hn & ->)].
  - split.
    + intros _. split; [exact Et|]. split; [|do 2 eexists; reflexivity].
      rewrite assert_events_existsb by reflexivity. cbn.
      destruct (CONFIG_DEBUG cfg); reflexivity.
    + intros N. contradiction.
  - unfold needs_release in Hn. apply andb_true_iff in Hn as [Hn1 Hn2].
    apply negb_true_iff in Hn1, Hn2. apply Z.eqb_neq in Hn1, Hn2.
    split; [intros Z0; contradiction|].
    intros _. split; [exact Hn2|]. split; [exact Et|].
    do 2 eexists. reflexivity.
Qed.

(** C3, amended.  After a successful call, a second call with the same
    arguments makes no release and no allocation exactly when the first
    call recorded the effective size as [adj_stack_size]; it then returns
    [OK] and leaves the TCB and the heap as they were.  The recorded size
    is the effective size [S] exactly when [B + S - 4] is a multiple of
    the stack alignment. *)
Theorem create_stack_twice tcb r k (w w1 : world heap) e1 :
  up_create_stack cfg tcb r k w = (OK, w1, e1) ->
  let S := effective_size cfg r in
  let B := stack_alloc_ptr (w_tcb w1) in
  let '(st2, w2, e2) := up_create_stack cfg tcb r k w1 in
  ((existsb is_release e2 = false /\ existsb is_alloc e2 = false)
   <-> adj_stack_size (w_tcb w1) = S)
  /\ (adj_stack_size (w_tcb w1) = S ->
      st2 = OK /\ w_tcb w2 = w_tcb w1 /\ w_heap w2 = w_heap w1)
  /\ (alignment_ok cfg = true -> 0 <= S < 2 ^ 32 ->
      (adj_stack_size (w_tcb w1) = S
       <-> wrap32 (B + S - 4) mod CONFIG_STACK_ALIGNMENT cfg = 0)).
Proof.
  intros Hrun1. cbv zeta.
  destruct (created_ok cfg _ _ _ _ _ _ Hrun1) as (Hnz & Hptr1 & Hsize1).
  destruct (up_create_stack cfg tcb r k w1) as [[st2 w2] e2] eqn:Hrun2.
  assert (Hkeep : adj_stack_size (w_tcb w1) = effective_size cfg r ->
            st2 = OK /\ w_tcb w2 = w_tcb w1 /\ w_heap w2 = w_heap w1
            /\ existsb is_release e2 = false /\ existsb is_alloc e2 = false).
  { intros Heq.
    rewrite (kept_block cfg tcb r k w1 Hnz Heq) in Hrun2.
    inversion Hrun2; subst st2 w2 e2; clear Hrun2. cbn [w_tcb w_heap].
    split; [reflexivity|]. split.
    - rewrite <- Hptr1, <- Hsize1. destruct (w_tcb w1); reflexivity.
    - split; [reflexivity|].
      split; now rewrite assert_events_existsb. }
  split; [|split].
  - split; [|intros Heq; apply Hkeep in Heq; tauto].
    intros [Hrel _].
    destruct (Z.eqb_spec (adj_stack_size (w_tcb w1)) (effective_size cfg r))
      as [E|E]; [exact E|exfalso].
    destruct (created_inv cfg tcb r k w1 w2 st2 e2 Hrun2)
      as (wa & ea & wb & eb & Hrec & _ & _ & _ & Hevs).
    destruct (reconciled_events _ _ _ _ _ Hrec) as [(_ & _ & Hn)|(-> & _)].
    + unfold needs_release in Hn. apply Z.eqb_neq in Hnz, E.
      rewrite Hnz, E in Hn. discriminate.
    + assert (Hex : existsb is_release e2 = true).
      { apply existsb_exists. exists (EvRelease k). split; [|reflexivity].
        destruct Hevs as [(_ & _ & _ & ->)|(_ & _ & ->)];
          rewrite !in_app_iff; right; left; left; reflexivity. }
      congruence.
  - intros Heq. apply Hkeep in Heq. tauto.
  - intros Hok HS. rewrite Hsize1. apply size_of_stack_fixed; assumption.
Qed.

(** C5, amended.  On a successful return, with the block [[B, B + S)]
    inside the 32-bit address space: [adj_stack_ptr] is strictly below
    [B + S]; it is at least [B] plus the TLS header size (0 without TLS)
    exactly when [S] leaves room for the header, the reserved word and the
    bytes lost to the rounding, which is so whenever [S] is at least the
    header size plus the alignment plus 3. *)
Theorem create_stack_pointer_bounds tcb r k (w w' : world heap) evs :
  alignment_ok cfg = true ->
  up_create_stack cfg tcb r k w = (OK, w', evs) ->
  let B := stack_alloc_ptr (w_tcb w') in
  let S := effective_size cfg r in
  let A := CONFIG_STACK_ALIGNMENT cfg in
  0 <= B -> 4 <= B + S -> B + S <= 2 ^ 32 ->
  adj_stack_ptr (w_tcb w') < B + S
  /\ (B + tls_header_size cfg <= adj_stack_ptr (w_tcb w')
      <-> tls_header_size cfg + 4 + (B + S - 4) mod A <= S)
  /\ (tls_header_size cfg + A + 3 <= S -> B + tls_header_size cfg <= adj_stack_ptr (w_tcb w')).
Proof.
  intros Hok Hrun B S A HB Hlo Hhi.
  destruct (created_ok cfg _ _ _ _ _ _ Hrun) as (_ & Hptr & _).
  rewrite top_of_stack_mod in Hptr by assumption.
  fold B S A in Hptr.
  rewrite (wrap32_small (B + S - 4)) in Hptr by lia.
  pose proof (Z.mod_pos_bound (B + S - 4) A (alignment_pos cfg Hok)) as Hm.
  rewrite Hptr. repeat split; intros; lia.
Qed.

(** C6.  A call makes at most one allocation, of the effective size, and
    its answer becomes [stack_alloc_ptr].  With the kernel heap (a
    protected or kernel build with [CONFIG_MM_KERNEL_HEAP]) a kernel thread
    allocates from the kernel heap, a task or a pthread from the user
    heap; without it every thread allocates from the user heap.  With TLS
    the allocator is the aligned one, called with [TLS_STACK_ALIGN];
    without TLS it is the plain one. *)
Theorem create_stack_heap_selection tcb r k (w : world heap) :
  let S := effective_size cfg r in
  let h1 := w_heap (fst (reconciled S k w)) in
  let '(st, w', evs) := up_create_stack cfg tcb r k w in
  (length (filter is_alloc evs) <= 1)%nat
  /\ forall hp al sz p, In (EvAlloc hp al sz p) evs ->
       sz = S /\ p = stack_alloc_ptr (w_tcb w')
       /\ (HAVE_KERNEL_HEAP cfg = true -> k = TCB_FLAG_TTYPE_KERNEL ->
           hp = KernelHeap
           /\ (CONFIG_TLS cfg = true ->
               al = Some (TLS_STACK_ALIGN cfg)
               /\ kmm_memalign (TLS_STACK_ALIGN cfg) S h1 = (p, w_heap w'))
           /\ (CONFIG_TLS cfg = false ->
               al = None /\ kmm_malloc S h1 = (p, w_heap w')))
       /\ (HAVE_KERNEL_HEAP cfg = false
           \/ k = TCB_FLAG_TTYPE_TASK \/ k = TCB_FLAG_TTYPE_PTHREAD ->
           hp = UserHeap
           /\ (CONFIG_TLS cfg = true ->
               al = Some (TLS_STACK_ALIGN cfg)
               /\ kumm_memalign (TLS_STACK_ALIGN cfg) S h1 = (p, w_heap w'))
           /\ (CONFIG_TLS cfg = false ->
               al = None /\ kumm_malloc S h1 = (p, w_heap w'))).
Proof.
  cbv zeta.
  destruct (up_create_stack cfg tcb r k w) as [[st w'] evs] eqn:Hrun.
  destruct (alloc_event_inv cfg tcb r k w w' st evs Hrun) as [Hone Hev].
  split; [exact Hone|].
  intros hp al sz p Hin.
  destruct (Hev hp al sz p Hin) as (-> & -> & -> & -> & Hsel).
  split; [reflexivity|]. split; [reflexivity|].
  unfold selected_alloc, selected_align in *. split.
  - intros HK Hk. rewrite (selected_heap_kernel cfg k HK Hk) in *.
    split; [reflexivity|].
    split; intros HT; rewrite HT in *; split; reflexivity || exact Hsel.
  - intros HU. rewrite (selected_heap_user cfg k HU) in *.
    split; [reflexivity|].
    split; intros HT; rewrite HT in *; split; reflexivity || exact Hsel.
Qed.

(** C7, amended.  With TLS the size used for the allocation and the
    geometry is the 32-bit sum of line 139, the requested size plus the
    size of the TLS structure, and [TLS_MAXSTACK] whenever that 32-bit sum
    exceeds [TLS_MAXSTACK]; for a request whose sum with the size of the
    structure fits 32 bits it is the sum of the integers, and
    [TLS_MAXSTACK] whenever that exceeds [TLS_MAXSTACK].  Lines 136-150
    leave the state as it is; what they do besides is the assertion, made
    in a debug build when the sum exceeds [TLS_MAXSTACK], before the size
    is replaced.  The call goes on to return [ERROR] only with no stack
    attached. *)
Theorem tls_effective_size tcb r k (w : world heap) :
  CONFIG_TLS cfg = true ->
  let sum := wrap32 (r + sizeof_tls_info_s cfg) in
  let S := effective_size cfg r in
  (sum <= TLS_MAXSTACK cfg -> S = sum)
  /\ (TLS_MAXSTACK cfg < sum -> S = TLS_MAXSTACK cfg)
  /\ (0 <= r + sizeof_tls_info_s cfg < 2 ^ 32 ->
      (r + sizeof_tls_info_s cfg <= TLS_MAXSTACK cfg -> S = r + sizeof_tls_info_s cfg)
      /\ (TLS_MAXSTACK cfg < r + sizeof_tls_info_s cfg -> S = TLS_MAXSTACK cfg))
  /\ tls_stack_size cfg r w
     = (S, w,
        if CONFIG_DEBUG cfg && negb (sum <=? TLS_MAXSTACK cfg) then [EvAssert] else [])
  /\ (let '(st, w', evs) := up_create_stack cfg tcb r k w in
      (forall hp al sz p, In (EvAlloc hp al sz p) evs -> sz = S)
      /\ (st = OK ->
          adj_stack_ptr (w_tcb w')
          = STACK_ALIGN_DOWN cfg (wrap32 (wrap32 (stack_alloc_ptr (w_tcb w')) + S - 4)))
      /\ (st = ERROR -> stack_alloc_ptr (w_tcb w') = 0)).
Proof.
  intros HT sum S.
  assert (HS : S = if sum >=? TLS_MAXSTACK cfg then TLS_MAXSTACK cfg else sum).
  { unfold S, effective_size. rewrite HT. reflexivity. }
  split; [|split; [|split; [|split]]].
  - intros Hle. rewrite HS, Z.geb_leb.
    destruct (Z.leb_spec (TLS_MAXSTACK cfg) sum); lia.
  - intros Hlt. rewrite HS, Z.geb_leb.
    destruct (Z.leb_spec (TLS_MAXSTACK cfg) sum); lia.
  - intros Hr. rewrite HS, Z.geb_leb. unfold sum. rewrite (wrap32_small _ Hr).
    destruct (Z.leb_spec (TLS_MAXSTACK cfg) (r + sizeof_tls_info_s cfg)); lia.
  - unfold S, sum, tls_stack_size, effective_size, DEBUGASSERT, bind, ret, emit.
    rewrite HT.
    destruct (CONFIG_DEBUG cfg && _); reflexivity.
  - destruct (up_create_stack cfg tcb r k w) as [[st w'] evs] eqn:Hrun.
    split; [|split].
    + intros hp al sz p Hin.
      destruct (alloc_event_inv cfg tcb r k w w' st evs Hrun) as [_ Hev].
      destruct (Hev hp al sz p Hin) as (_ & _ & Hsz & _). exact Hsz.
    + intros ->. destruct (created_ok cfg _ _ _ _ _ _ Hrun) as (_ & Hptr & _).
      exact Hptr.
    + intros ->.
      destruct (created_inv cfg tcb r k w w' ERROR evs Hrun)
        as (w1 & e1 & w2 & e2 & _ & _ & Hp & _ & [(_ & _ & Hz & _)|(N & _)]).
      * rewrite Hp. exact Hz.
      * discriminate.
Qed.



(** C10.  For every input, [up_create_stack] returns [OK] if and only if
    [stack_alloc_ptr] is non-null when the call returns, and [ERROR] if and
    only if it is null; [ERROR] comes with an allocation that returned
    null, for a TCB that did not hold a stack of the effective size. *)
Theorem create_stack_ok_iff_attached tcb r k (w : world heap) :
  let '(st, w', evs) := up_create_stack cfg tcb r k w in
  (st = OK <-> stack_alloc_ptr (w_tcb w') <> 0)
  /\ (st = ERROR <-> stack_alloc_ptr (w_tcb w') = 0)
  /\ (st = ERROR ->
      (exists h al sz, In (EvAlloc h al sz 0) evs)
      /\ ~ (stack_alloc_ptr (w_tcb w) <> 0
            /\ adj_stack_size (w_tcb w) = effective_size cfg r)).
Proof.
  rewrite up_create_stack_created. unfold created.
  set (size := effective_size cfg r).
  assert (Hrec : forall w1 e1, reconciled size k w = (w1, e1) ->
            (stack_alloc_ptr (w_tcb w1) = 0 ->
             ~ (stack_alloc_ptr (w_tcb w) <> 0 /\ adj_stack_size (w_tcb w) = size))).
  { unfold reconciled, needs_release. intros w1 e1.
    destruct (Z.eqb_spec (stack_alloc_ptr (w_tcb w)) 0) as [E0|E0];
      [|destruct (Z.eqb_spec (adj_stack_size (w_tcb w)) size) as [E1|E1]];
      cbn [negb andb].
    - intros _ _ [N _]. contradiction.
    - intros E. inversion E; subst. intros Z0. contradiction.
    - intros _ _ [_ N]. contradiction. }
  destruct (reconciled size k w) as [w1 e1]. specialize (Hrec w1 e1 eq_refl).
  unfold allocated.
  destruct (Z.eqb_spec (stack_alloc_ptr (w_tcb w1)) 0) as [E1|E1].
  - (* no stack is attached any more: the allocator decides *)
    destruct (selected_alloc cfg k size (w_heap w1)) as [p hp].
    cbn [w_tcb stack_alloc_ptr].
    destruct (Z.eqb_spec p 0) as [Ep|Ep].
    + subst p. split; [split; [discriminate|contradiction]|].
      split; [split; reflexivity|]. intros _. split; [|auto].
      do 3 eexists. apply in_or_app. right. apply in_or_app. right.
      left. reflexivity.
    + cbn [w_tcb stack_alloc_ptr].
      split; [split; [intros _; exact Ep|reflexivity]|].
      split; [split; [discriminate|contradiction]|discriminate].
  - (* the stack that is attached is kept *)
    apply Z.eqb_neq in E1. rewrite E1. apply Z.eqb_neq in E1.
    cbn [w_tcb stack_alloc_ptr].
    split; [split; [intros _; exact E1|reflexivity]|].
    split; [split; [discriminate|contradiction]|discriminate].
Qed.

End Claims.

(** ** The claim about [up_stack_color] *)

(** C4, at a base that is not word-aligned with fewer bytes than reach the
    next word boundary: the end, rounded down, is below the base; the
    32-bit difference is close to [2 ^ 32] and the loop is set for
    [0x3FFFFFFF] words, of which the first lands past the region. *)
Theorem stack_color_overrun :
  let base := 0x20001001 in
  let nbytes := 2 in
  color_stkptr base = 0x20001004
  /\ color_stkend base nbytes = 0x20001000
  /\ color_nwords base nbytes = 0x3FFFFFFF
  /\ ~ (base <= color_stkptr base < base + nbytes)
  /\ forall cfg m,
       load32 (up_stack_color cfg base nbytes m) (color_stkptr base)
       = wrap32 (STACK_COLOR cfg).
Proof.
  cbv zeta.
  assert (E : color_nwords 0x20001001 2 = 0x3FFFFFFF) by (vm_compute; reflexivity).
  split; [vm_compute; reflexivity|]. split; [vm_compute; reflexivity|].
  split; [exact E|]. split.
  - change (color_stkptr 0x20001001) with 0x20001004. lia.
  - intros cfg m. apply stack_color_first_word. rewrite E. reflexivity.
Qed.

(** ** The scenarios *)

Example scenario1_result :
  status_of scenario1 = OK
  /\ w_tcb (world_of scenario1) = Build_tcb_s 0x20001000 1020 0x200013F8
  /\ events_of scenario1 = [EvAlloc UserHeap None 1024 0x20001000; EvLed 3].
Proof. vm_compute. repeat split. Qed.

(** Scenario 2: scenario 1 without EABI. *)
Example scenario2_result :
  let x := up_create_stack oabi_build tcb_addr 1024 TCB_FLAG_TTYPE_TASK
             (start no_stack [0x20001000]) in
  status_of x = OK
  /\ w_tcb (world_of x) = Build_tcb_s 0x20001000 1024 0x200013FC.
Proof. vm_compute. repeat split. Qed.

Example scenario3_result :
  status_of scenario3 = OK
  /\ w_tcb (world_of scenario3) = Build_tcb_s 0x20002000 1036 0x20002408
  /\ events_of scenario3 = [EvAlloc UserHeap (Some 2048) 1040 0x20002000; EvLed 3]
  /\ load32 (w_mem (world_of scenario3)) 0x20002000 = tcb_addr.
Proof. vm_compute. repeat split. Qed.

(** Scenario 4: a kernel thread in a protected build with the kernel heap
    allocates from the kernel heap, a task from the user heap. *)
Example scenario4_result :
  events_of (up_create_stack protected_build tcb_addr 1024 TCB_FLAG_TTYPE_KERNEL
               (start no_stack [0x20001000]))
  = [EvAlloc KernelHeap None 1024 0x20001000; EvLed 3]
  /\ events_of (up_create_stack protected_build tcb_addr 1024 TCB_FLAG_TTYPE_TASK
                  (start no_stack [0x20001000]))
     = [EvAlloc UserHeap None 1024 0x20001000; EvLed 3].
Proof. vm_compute. split; reflexivity. Qed.

Example scenario6_result :
  status_of scenario6 = ERROR
  /\ w_tcb (world_of scenario6) = no_stack
  /\ events_of scenario6 = [EvAlloc UserHeap None 1024 0; EvDebugLog 1024].
Proof. vm_compute. repeat split. Qed.

(** The coloration of an unaligned region that is too short changes the
    word after it. *)
Example stack_color_overrun_changes_memory :
  load32 zero_mem 0x20001004 = 0
  /\ load32 (up_stack_color eabi_build 0x20001001 2 zero_mem) 0x20001004 = 0xdeadbeef.
Proof.
  split; [reflexivity|].
  change 0x20001004 with (color_stkptr 0x20001001).
  rewrite stack_color_first_word; reflexivity.
Qed.

(** ** The theorems at the scenarios *)

(** C1 fails here: under EABI a request of 2 bytes at [0x20001000] puts the rounded
    top 8 bytes below the base, and the recorded size is the 32-bit
    [-4]. *)
Lemma recorded_size_wraps :
  status_of undersized = OK
  /\ stack_alloc_ptr (w_tcb (world_of undersized)) = 0x20001000
  /\ effective_size eabi_build 2 = 2
  /\ adj_stack_ptr (w_tcb (world_of undersized)) = 0x20000FF8
  /\ adj_stack_size (w_tcb (world_of undersized)) = 4294967292
  /\ adj_stack_ptr (w_tcb (world_of undersized))
     - stack_alloc_ptr (w_tcb (world_of undersized)) + 4 = -4.
Proof. vm_compute. repeat split. Qed.

Lemma create_stack_geometry_witness :
  alignment_ok eabi_build = true
  /\ scenario1 = (OK, world_of scenario1, events_of scenario1)
  /\ adj_stack_ptr (w_tcb (world_of scenario1)) = 0x200013F8
  /\ adj_stack_size (w_tcb (world_of scenario1)) = 1020
  /\ adj_stack_ptr (w_tcb (world_of scenario1)) mod 8 = 0.
Proof.
  assert (Hok : alignment_ok eabi_build = true) by reflexivity.
  assert (Hrun : up_create_stack eabi_build tcb_addr 1024 TCB_FLAG_TTYPE_TASK
                   (start no_stack [0x20001000])
                 = (OK, world_of scenario1, events_of scenario1))
    by (vm_compute; reflexivity).
  split; [exact Hok|]. split; [exact Hrun|].
  destruct (create_stack_geometry eabi_build _ _ _ _ _ _ Hok Hrun)
    as (Hptr & Hsize & Hmod & _).
  split; [|split].
  - rewrite Hptr. vm_compute. reflexivity.
  - rewrite Hsize, Hptr. vm_compute. reflexivity.
  - exact Hmod.
Defined.

(** C2 fails on a TCB that holds a stack of another size: 512 bytes are
    attached, 1024 are asked for and the allocator returns null.  The old
    stack is released and the TCB is not what it was. *)
Lemma failed_allocation_after_release :
  let t0 := Build_tcb_s 0x20001000 508 0x200011F8 in
  let x := up_create_stack eabi_build tcb_addr 1024 TCB_FLAG_TTYPE_TASK
             (start t0 []) in
  status_of x = ERROR
  /\ events_of x = [EvRelease TCB_FLAG_TTYPE_TASK; EvAlloc UserHeap None 1024 0]
  /\ existsb is_release (events_of x) = true
  /\ w_tcb (world_of x) <> t0.
Proof. vm_compute. repeat split. discriminate. Qed.

Lemma create_stack_alloc_failure_witness :
  scenario6 = (ERROR, world_of scenario6, events_of scenario6)
  /\ In (EvAlloc UserHeap None 1024 0) (events_of scenario6)
  /\ w_tcb (world_of scenario6) = no_stack
  /\ existsb is_release (events_of scenario6) = false.
Proof.
  assert (Hrun : up_create_stack debug_build tcb_addr 1024 TCB_FLAG_TTYPE_TASK
                   (start no_stack [])
                 = (ERROR, world_of scenario6, events_of scenario6))
    by (vm_compute; reflexivity).
  assert (Hin : In (EvAlloc UserHeap None 1024 0) (events_of scenario6))
    by (vm_compute; left; reflexivity).
  split; [exact Hrun|]. split; [exact Hin|].
  assert (Hex : exists hp al sz, In (EvAlloc hp al sz 0) (events_of scenario6))
    by (exists UserHeap, None, 1024; exact Hin).
  destruct (create_stack_alloc_failure debug_build _ _ _ _ _ _ _ Hrun Hex)
    as (_ & Hnone & _).
  destruct (Hnone eq_refl) as (Ht & Hrel & _).
  split; [exact Ht|exact Hrel].
Defined.

(** C3 fails under EABI: 1024 bytes at [0x20001000] are recorded as 1020,
    and the second of two equal calls releases the block and allocates
    another. *)
Lemma second_call_reallocates :
  let x1 := up_create_stack eabi_build tcb_addr 1024 TCB_FLAG_TTYPE_TASK
              (start no_stack [0x20001000; 0x20002000]) in
  let x2 := up_create_stack eabi_build tcb_addr 1024 TCB_FLAG_TTYPE_TASK
              (world_of x1) in
  status_of x1 = OK
  /\ events_of x2 = [EvRelease TCB_FLAG_TTYPE_TASK;
                     EvAlloc UserHeap None 1024 0x20002000; EvLed 3]
  /\ existsb is_release (events_of x2) = true
  /\ existsb is_alloc (events_of x2) = true
  /\ stack_alloc_ptr (w_tcb (world_of x2)) <> stack_alloc_ptr (w_tcb (world_of x1)).
Proof. vm_compute. repeat split. discriminate. Qed.

Lemma create_stack_twice_witness :
  twice_first = (OK, world_of twice_first, events_of twice_first)
  /\ existsb is_release (events_of twice_second) = false
  /\ existsb is_alloc (events_of twice_second) = false
  /\ status_of twice_second = OK
  /\ w_tcb (world_of twice_second) = w_tcb (world_of twice_first).
Proof.
  assert (Hrun : up_create_stack oabi_build tcb_addr 1024 TCB_FLAG_TTYPE_TASK
                   (start no_stack [0x20001000; 0x20002000])
                 = (OK, world_of twice_first, events_of twice_first))
    by (vm_compute; reflexivity).
  split; [exact Hrun|].
  pose proof (create_stack_twice oabi_build _ _ _ _ _ _ Hrun) as H.
  cbv zeta in H. fold twice_second in H.
  rewrite (surjective_pairing twice_second) in H.
  rewrite (surjective_pairing (fst twice_second)) in H.
  destruct H as (Hiff & Hsame & _).
  assert (Hsz : adj_stack_size (w_tcb (world_of twice_first))
                = effective_size oabi_build 1024) by (vm_compute; reflexivity).
  destruct (proj2 Hiff Hsz) as [Hrel Hal].
  destruct (Hsame Hsz) as (Hst & Ht & _).
  repeat split; assumption.
Defined.

(** C5 fails at a request of 2 bytes without TLS: the call succeeds and
    the stack pointer is below the base of the block. *)
Lemma tiny_size_pointer_below_base :
  let x := up_create_stack eabi_build tcb_addr 2 TCB_FLAG_TTYPE_TASK
             (start no_stack [0x20001000]) in
  CONFIG_TLS eabi_build = false
  /\ status_of x = OK
  /\ stack_alloc_ptr (w_tcb (world_of x)) = 0x20001000
  /\ adj_stack_ptr (w_tcb (world_of x)) = 0x20000FF8
  /\ ~ (stack_alloc_ptr (w_tcb (world_of x)) <= adj_stack_ptr (w_tcb (world_of x))).
Proof. vm_compute. repeat split. intros H. apply H. reflexivity. Qed.

Lemma create_stack_pointer_bounds_witness :
  alignment_ok eabi_build = true
  /\ scenario1 = (OK, world_of scenario1, events_of scenario1)
  /\ 0 <= 0x20001000
  /\ 4 <= 0x20001000 + 1024
  /\ 0x20001000 + 1024 <= 2 ^ 32
  /\ adj_stack_ptr (w_tcb (world_of scenario1)) < 0x20001000 + 1024
  /\ 0x20001000 + 0 <= adj_stack_ptr (w_tcb (world_of scenario1)).
Proof.
  assert (Hok : alignment_ok eabi_build = true) by reflexivity.
  assert (Hrun : up_create_stack eabi_build tcb_addr 1024 TCB_FLAG_TTYPE_TASK
                   (start no_stack [0x20001000])
                 = (OK, world_of scenario1, events_of scenario1))
    by (vm_compute; reflexivity).
  assert (HB : 0 <= 0x20001000) by lia.
  assert (Hlo : 4 <= 0x20001000 + 1024) by lia.
  assert (Hhi : 0x20001000 + 1024 <= 2 ^ 32) by lia.
  split; [exact Hok|]. split; [exact Hrun|].
  split; [exact HB|]. split; [exact Hlo|]. split; [exact Hhi|].
  destruct (create_stack_pointer_bounds eabi_build _ _ _ _ _ _ Hok Hrun HB Hlo Hhi)
    as (Hlt & _ & Hge).
  split; [exact Hlt|].
  apply Hge. vm_compute. discriminate.
Defined.

(** C7 fails here: with TLS a request of [0xFFFFFFF8] bytes and the 16 of the
    structure exceed [TLS_MAXSTACK], but their 32-bit sum is 8, and 8
    bytes are allocated. *)
Lemma tls_sum_wraps :
  CONFIG_TLS tls_build = true
  /\ 0 <= 0xFFFFFFF8 < 2 ^ 32
  /\ TLS_MAXSTACK tls_build < 0xFFFFFFF8 + sizeof_tls_info_s tls_build
  /\ effective_size tls_build 0xFFFFFFF8 = 8
  /\ effective_size tls_build 0xFFFFFFF8 <> TLS_MAXSTACK tls_build
  /\ status_of tls_huge = OK
  /\ events_of tls_huge
     = [EvAlloc UserHeap (Some 2048) 8 0x20002000; EvLed 3].
Proof. vm_compute. repeat split; discriminate. Qed.

Lemma tls_effective_size_witness :
  CONFIG_TLS tls_build = true
  /\ effective_size tls_build 1024 = 1040
  /\ effective_size tls_build 4000 = 2048.
Proof.
  assert (HT : CONFIG_TLS tls_build = true) by reflexivity.
  split; [exact HT|]. split.
  - destruct (tls_effective_size tls_build tcb_addr 1024 TCB_FLAG_TTYPE_TASK
                (start no_stack [0x20002000]) HT) as (Hle & _).
    rewrite Hle; vm_compute; [reflexivity|discriminate].
  - destruct (tls_effective_size tls_build tcb_addr 4000 TCB_FLAG_TTYPE_TASK
                (start no_stack [0x20002000]) HT) as (_ & Hgt & _).
    rewrite Hgt; vm_compute; reflexivity.
Defined.





(** ** The alignment macros *)

Lemma alignment_le cfg : alignment_ok cfg = true -> CONFIG_STACK_ALIGNMENT cfg <= 2 ^ 31.
Proof.
  unfold alignment_ok. intros H. apply andb_true_iff in H as [_ Hle].
  now apply Z.leb_le in Hle.
Qed.

Lemma multiple_le_round_down a n m :
  0 < n -> m mod n = 0 -> m <= a -> m <= a - a mod n.
Proof.
  intros Hn Hm Hle.
  apply Z.mod_divide in Hm; [|lia]. destruct Hm as [j ->].
  pose proof (Z.div_mod a n ltac:(lia)) as D.
  pose proof (Z.mod_pos_bound a n Hn) as Hr.
  assert (j <= a / n) by (apply Z.div_le_lower_bound; lia).
  nia.
Qed.

(** Two multiples of [n] less than [n] apart are in order. *)
Lemma multiple_gap n x y :
  0 < n -> x mod n = 0 -> y mod n = 0 -> y - n < x -> y <= x.
Proof.
  intros Hn Hx Hy Hlt.
  apply Z.mod_divide in Hx; [|lia]. destruct Hx as [i ->].
  apply Z.mod_divide in Hy; [|lia]. destruct Hy as [j ->].
  assert (j <= i); [|nia].
  destruct (Z_lt_le_dec i j) as [L|L]; [|exact L].
  assert ((i + 1) * n <= j * n) by (apply Z.mul_le_mono_nonneg_r; lia). lia.
Qed.

(** X1.  [STACK_ALIGN_DOWN] of a 32-bit address is the greatest multiple
    of the stack alignment that is not above it; an aligned address is
    left as it is. *)
Theorem STACK_ALIGN_DOWN_greatest cfg a :
  alignment_ok cfg = true -> 0 <= a < 2 ^ 32 ->
  let A := CONFIG_STACK_ALIGNMENT cfg in
  let d := STACK_ALIGN_DOWN cfg a in
  d mod A = 0
  /\ a - A < d <= a
  /\ (forall m, m mod A = 0 -> m <= a -> m <= d)
  /\ (a mod A = 0 <-> d = a)
  /\ STACK_ALIGN_DOWN cfg d = d.
Proof.
  intros Hok Ha. cbv zeta.
  pose proof (alignment_pos cfg Hok) as Hpos.
  pose proof (Z.mod_pos_bound a _ Hpos) as Hm.
  pose proof (Z.mod_le a _ (proj1 Ha) Hpos) as Hma.
  rewrite (STACK_ALIGN_DOWN_mod cfg a Hok Ha).
  assert (Hd0 : (a - a mod CONFIG_STACK_ALIGNMENT cfg) mod CONFIG_STACK_ALIGNMENT cfg = 0)
    by now apply round_down_multiple.
  split; [exact Hd0|]. split; [lia|]. split; [|split].
  - intros m Hm0 Hle. now apply multiple_le_round_down.
  - lia.
  - rewrite STACK_ALIGN_DOWN_mod by (assumption || lia). rewrite Hd0. lia.
Qed.

(** X2.  [STACK_ALIGN_UP] of a 32-bit address is the least multiple of the
    stack alignment that is not below it, as long as the address plus the
    mask fits 32 bits; it is [STACK_ALIGN_DOWN] plus the alignment for an
    address that is not aligned.  When the sum does not fit, the result is
    0. *)
Theorem STACK_ALIGN_UP_least cfg a :
  alignment_ok cfg = true -> 0 <= a < 2 ^ 32 ->
  let A := CONFIG_STACK_ALIGNMENT cfg in
  let u := STACK_ALIGN_UP cfg a in
  (a + (A - 1) < 2 ^ 32 ->
   u mod A = 0
   /\ a <= u < a + A
   /\ (forall m, m mod A = 0 -> a <= m -> u <= m)
   /\ (a mod A = 0 -> u = a)
   /\ (a mod A <> 0 -> u = STACK_ALIGN_DOWN cfg a + A))
  /\ (2 ^ 32 <= a + (A - 1) -> u = 0).
Proof.
  intros Hok Ha. cbv zeta.
  pose proof (alignment_pos cfg Hok) as Hpos.
  pose proof (alignment_le cfg Hok) as Hle.
  assert (Eu : STACK_ALIGN_UP cfg a
               = wrap32 (a + (CONFIG_STACK_ALIGNMENT cfg - 1))
                 - wrap32 (a + (CONFIG_STACK_ALIGNMENT cfg - 1))
                   mod CONFIG_STACK_ALIGNMENT cfg).
  { unfold STACK_ALIGN_UP.
    fold (STACK_ALIGN_DOWN cfg (wrap32 (a + STACK_ALIGN_MASK cfg))).
    rewrite STACK_ALIGN_DOWN_mod by auto with machine. reflexivity. }
  set (A := CONFIG_STACK_ALIGNMENT cfg) in *.
  set (u := STACK_ALIGN_UP cfg a) in *. clearbody u.
  split.
  - intros Hfit. rewrite wrap32_small in Eu by lia.
    pose proof (Z.mod_pos_bound (a + (A - 1)) A Hpos) as Hm.
    pose proof (Z.mod_pos_bound a A Hpos) as Hma.
    assert (Hu0 : u mod A = 0) by (rewrite Eu; now apply round_down_multiple).
    assert (Hge : a <= u).
    { (* [u] is a multiple of [A] above [a - 1] *)
      destruct (Z.eq_dec (a mod A) 0) as [E0|N0].
      - pose proof (multiple_le_round_down (a + (A - 1)) A a Hpos E0 ltac:(lia)). lia.
      - assert (Hmul : (a - a mod A + A) mod A = 0).
        { rewrite <- Z.add_mod_idemp_l, round_down_multiple by lia.
          rewrite Z.add_0_l. apply Z.mod_same. lia. }
        pose proof (multiple_le_round_down (a + (A - 1)) A (a - a mod A + A)
                      Hpos Hmul ltac:(lia)). lia. }
    split; [exact Hu0|]. split; [lia|]. split; [|split].
    + intros m Hm0 Ham. apply (multiple_gap A m u); assumption || lia.
    + intros E0. assert (u <= a) by (apply (multiple_gap A a u); assumption || lia).
      lia.
    + intros N0. rewrite STACK_ALIGN_DOWN_mod by assumption. fold A.
      pose proof (round_down_multiple a A Hpos) as Hd0.
      assert (a - a mod A + A <= u).
      { apply (multiple_gap A u (a - a mod A + A)); try assumption; [|lia].
        rewrite <- Z.add_mod_idemp_l, Hd0 by lia.
        rewrite Z.add_0_l. apply Z.mod_same. lia. }
      assert (u <= a - a mod A + A); [|lia].
      apply (multiple_gap A (a - a mod A + A) u); try assumption; [|lia].
      rewrite <- Z.add_mod_idemp_l, Hd0 by lia.
      rewrite Z.add_0_l. apply Z.mod_same. lia.
  - intros Hover.
    assert (Ew : wrap32 (a + (A - 1)) = a + (A - 1) - 2 ^ 32).
    { unfold wrap32. symmetry. apply Z.mod_unique with (q := 1); lia. }
    rewrite Eu, Ew. rewrite Z.mod_small by lia. lia.
Qed.

(** ** More on the coloration *)

(** X4.  Line 311 counts the words from [stackbase], not from the
    rounded-up [stkptr]: for every base and byte count the count is the
    one from [stkptr] to [stkend], in 32-bit arithmetic. *)
Theorem stack_color_count_from_stkptr base nbytes :
  color_nwords base nbytes
  = Z.shiftr (wrap32 (color_stkend base nbytes - color_stkptr base)) 2.
Proof.
  unfold color_nwords, color_stkend, color_stkptr.
  rewrite !round_down_4 by apply wrap32_range.
  rewrite !Z.shiftr_div_pow2 by lia. change (2 ^ 2) with 4.
  unfold wrap32. change (2 ^ 32) with 4294967296.
  Z.div_mod_to_equations. lia.
Qed.

(** A second pass of the coloration changes nothing. *)
Lemma stack_color_again cfg base nbytes m x :
  up_stack_color cfg base nbytes (up_stack_color cfg base nbytes m) x
  = up_stack_color cfg base nbytes m x.
Proof.
  unfold up_stack_color.
  destruct (color_loop_shape cfg (Z.to_nat (color_nwords base nbytes))
              (color_stkptr base) (proj1 (color_stkptr_aligned base))) as [W HW].
  rewrite HW, (HW m). destruct (W x); reflexivity.
Qed.

Lemma color_loop_agree cfg n : forall p m1 m2 x,
  m1 x = m2 x -> color_loop cfg n p m1 x = color_loop cfg n p m2 x.
Proof.
  induction n as [|n IH]; intros p m1 m2 x E; [exact E|].
  cbn [color_loop]. apply IH. now apply store32_agree.
Qed.

(** X5.  For every base and byte count, coloring a region twice is
    coloring it once, and a byte after the coloration depends on the
    memory before it at that byte only: two memories that agree at an
    address agree there after the coloration. *)
Theorem stack_color_idempotent cfg base nbytes :
  (forall m x,
     up_stack_color cfg base nbytes (up_stack_color cfg base nbytes m) x
     = up_stack_color cfg base nbytes m x)
  /\ (forall m1 m2 x, m1 x = m2 x ->
        up_stack_color cfg base nbytes m1 x = up_stack_color cfg base nbytes m2 x).
Proof.
  split.
  - intros m x. apply stack_color_again.
  - intros m1 m2 x E. unfold up_stack_color. now apply color_loop_agree.
Qed.

(** An aligned word between two word boundaries is one of the words
    counted from the first. *)
Lemma aligned_word_index first last a :
  first mod 4 = 0 -> last mod 4 = 0 -> a mod 4 = 0 ->
  first <= a -> a + 4 <= last ->
  a = first + 4 * ((a - first) / 4) /\ 0 <= (a - first) / 4 < (last - first) / 4.
Proof. intros. Z.div_mod_to_equations. lia. Qed.

Lemma word_boundary_above b first :
  b <= first < b + 4 -> first mod 4 = 0 -> first = b + 3 - (b + 3) mod 4.
Proof. intros. Z.div_mod_to_equations. lia. Qed.

Lemma word_boundary_below e last :
  e - 4 < last <= e -> last mod 4 = 0 -> last = e - e mod 4.
Proof. intros. Z.div_mod_to_equations. lia. Qed.

(** When the base is word-aligned, or the region reaches the next word
    boundary: nothing changes outside the region, and every aligned word
    inside it is colored. *)
Lemma stack_color_region cfg base nbytes m :
  0 <= base -> 0 <= nbytes -> base + nbytes < 2 ^ 32 ->
  base mod 4 = 0 \/ 4 - base mod 4 <= nbytes ->
  (forall x, x < base \/ base + nbytes <= x ->
     up_stack_color cfg base nbytes m x = m x)
  /\ (forall a, a mod 4 = 0 -> base <= a -> a + 4 <= base + nbytes ->
        load32 (up_stack_color cfg base nbytes m) a = wrap32 (STACK_COLOR cfg)).
Proof.
  intros Hb Hn Hhi Hreach.
  destruct (stack_color_in_bounds cfg base nbytes m Hb Hn Hhi Hreach)
    as (Hfirst & Hf4 & Hlast & Hl4 & Hle & Hcount & Hout & Hin).
  set (first := color_stkptr base) in *. set (last := color_stkend base nbytes) in *.
  clearbody first last.
  assert (Efirst : first = base + 3 - (base + 3) mod 4)
    by now apply word_boundary_above.
  assert (Elast : last = base + nbytes - (base + nbytes) mod 4)
    by now apply word_boundary_below.
  split.
  - intros x Hx. apply Hout. lia.
  - intros a Ha Hlo Hup.
    assert (Hup' : a + 4 <= last).
    { rewrite Elast. clear - Ha Hup. Z.div_mod_to_equations. lia. }
    assert (Hlo' : first <= a).
    { rewrite Efirst. clear - Ha Hlo. Z.div_mod_to_equations. lia. }
    destruct (aligned_word_index first last a Hf4 Hl4 Ha Hlo' Hup') as [Ea Hi].
    rewrite Ea. apply Hin. exact Hi.
Qed.

(** X3.  When the base is word-aligned, or the region reaches the next
    word boundary, [up_stack_color] changes no byte outside
    [[base, base + nbytes)], leaves [STACK_COLOR] in every aligned word
    that lies inside the region, and writes as many words as lie between
    the base rounded up and the end rounded down; on a word-aligned base
    with fewer than 4 bytes it writes nothing. *)
Theorem stack_color_within_region cfg base nbytes m :
  0 <= base -> 0 <= nbytes -> base + nbytes < 2 ^ 32 ->
  base mod 4 = 0 \/ 4 - base mod 4 <= nbytes ->
  (forall x, x < base \/ base + nbytes <= x ->
     up_stack_color cfg base nbytes m x = m x)
  /\ (forall a, a mod 4 = 0 -> base <= a -> a + 4 <= base + nbytes ->
        load32 (up_stack_color cfg base nbytes m) a = wrap32 (STACK_COLOR cfg))
  /\ color_nwords base nbytes
     = ((base + nbytes - (base + nbytes) mod 4) - (base + 3 - (base + 3) mod 4)) / 4
  /\ (base mod 4 = 0 -> nbytes < 4 ->
      forall x, up_stack_color cfg base nbytes m x = m x).
Proof.
  intros Hb Hn Hhi Hreach.
  destruct (stack_color_region cfg base nbytes m Hb Hn Hhi Hreach) as [Hout Hin].
  destruct (stack_color_in_bounds cfg base nbytes m Hb Hn Hhi Hreach)
    as (Hfirst & Hf4 & Hlast & Hl4 & _ & Hcount & Hout' & _).
  split; [exact Hout|]. split; [exact Hin|]. split.
  - rewrite Hcount.
    rewrite (word_boundary_above base _ Hfirst Hf4) at 1.
    rewrite (word_boundary_below (base + nbytes) _ Hlast Hl4) at 1. reflexivity.
  - intros Hal Hshort x.
    destruct (Z_lt_le_dec x (color_stkptr base)) as [L|L]; [apply Hout'; lia|].
    apply Hout'. right.
    rewrite (word_boundary_above base _ Hfirst Hf4) in L.
    rewrite (word_boundary_below (base + nbytes) _ Hlast Hl4).
    clear - Hal Hshort Hn L. Z.div_mod_to_equations. lia.
Qed.

(** ** More on [up_create_stack] *)

Section MoreRuns.

Context {heap : Type} {ext : Externals heap}.
Variable cfg : config.

(** The geometry in the integers, for a block inside the address space:
    [m] bytes are lost to the rounding. *)
Lemma geometry_exact tcb r k (w w' : world heap) evs :
  alignment_ok cfg = true ->
  up_create_stack cfg tcb r k w = (OK, w', evs) ->
  let B := stack_alloc_ptr (w_tcb w') in
  let S := effective_size cfg r in
  let m := (B + S - 4) mod CONFIG_STACK_ALIGNMENT cfg in
  0 <= B -> 4 <= B + S -> B + S <= 2 ^ 32 ->
  B <> 0
  /\ 0 <= m < CONFIG_STACK_ALIGNMENT cfg
  /\ adj_stack_ptr (w_tcb w') = B + S - 4 - m
  /\ adj_stack_size (w_tcb w') = wrap32 (S - m).
Proof.
  intros Hok Hrun B S m HB Hlo Hhi.
  destruct (created_ok cfg _ _ _ _ _ _ Hrun) as (Hnz & Hptr & Hsize).
  rewrite size_of_stack_wrap in Hsize.
  rewrite top_of_stack_mod in Hptr, Hsize by assumption.
  fold B S in Hptr, Hsize, Hnz.
  rewrite (wrap32_small (B + S - 4)) in Hptr, Hsize by lia.
  fold m in Hptr, Hsize.
  split; [exact Hnz|].
  split; [apply Z.mod_pos_bound; now apply alignment_pos|].
  split; [exact Hptr|].
  rewrite Hsize. f_equal. lia.
Qed.

(** X6.  On a successful return with a block inside the address space
    whose effective size is at least the alignment plus 3: the word at the
    initial stack pointer lies inside the block, the recorded size is the
    distance from the base to the end of that word, and it is at most the
    effective size and less than one alignment below it. *)
Theorem create_stack_top_word_inside tcb r k (w w' : world heap) evs :
  alignment_ok cfg = true ->
  up_create_stack cfg tcb r k w = (OK, w', evs) ->
  let B := stack_alloc_ptr (w_tcb w') in
  let S := effective_size cfg r in
  let A := CONFIG_STACK_ALIGNMENT cfg in
  0 <= B -> B + S <= 2 ^ 32 -> A + 3 <= S ->
  B <= adj_stack_ptr (w_tcb w')
  /\ adj_stack_ptr (w_tcb w') + 4 <= B + S
  /\ B + adj_stack_size (w_tcb w') = adj_stack_ptr (w_tcb w') + 4
  /\ S - A < adj_stack_size (w_tcb w') <= S.
Proof.
  intros Hok Hrun B S A HB Hhi HS.
  pose proof (alignment_pos cfg Hok) as Hpos. fold A in Hpos.
  destruct (geometry_exact tcb r k w w' evs Hok Hrun HB ltac:(fold B S; lia) Hhi)
    as (Hnz & Hm & Hptr & Hsize).
  fold B S A in Hnz, Hm, Hptr, Hsize.
  rewrite wrap32_small in Hsize by lia.
  rewrite Hptr, Hsize. lia.
Qed.

(** X7.  A successful return with an effective size smaller than the bytes
    lost to the rounding (a few bytes under EABI) leaves the stack pointer
    more than 4 bytes below the base, and the recorded size has wrapped to
    a value just below [2 ^ 32]. *)
Theorem create_stack_undersized tcb r k (w w' : world heap) evs :
  alignment_ok cfg = true ->
  up_create_stack cfg tcb r k w = (OK, w', evs) ->
  let B := stack_alloc_ptr (w_tcb w') in
  let S := effective_size cfg r in
  let m := (B + S - 4) mod CONFIG_STACK_ALIGNMENT cfg in
  0 <= B -> 4 <= B + S -> B + S <= 2 ^ 32 -> 0 <= S < m ->
  adj_stack_ptr (w_tcb w') < B - 4
  /\ adj_stack_size (w_tcb w') = 2 ^ 32 + S - m
  /\ 2 ^ 32 - CONFIG_STACK_ALIGNMENT cfg < adj_stack_size (w_tcb w').
Proof.
  intros Hok Hrun B S m HB Hlo Hhi Hsmall.
  pose proof (alignment_le cfg Hok) as Hle.
  destruct (geometry_exact tcb r k w w' evs Hok Hrun HB Hlo Hhi)
    as (Hnz & Hm & Hptr & Hsize).
  fold B S m in Hnz, Hm, Hptr, Hsize.
  assert (E : wrap32 (S - m) = 2 ^ 32 + S - m).
  { unfold wrap32. symmetry. apply Z.mod_unique with (q := -1); lia. }
  rewrite Hptr, Hsize, E. lia.
Qed.

End MoreRuns.

Section TwoBlocks.

Context {heap : Type} {ext : Externals heap}.
Variable cfg : config.

(** X8.  The recorded size does not depend on where the block is, as long
    as the bases agree modulo the stack alignment: two successful calls
    with the same effective size on such blocks record the same
    [adj_stack_size] and stack pointers at the same distance from their
    bases. *)
Theorem create_stack_size_by_alignment tcb1 tcb2 r1 r2 k1 k2
    (w1 w1' w2 w2' : world heap) e1 e2 :
  alignment_ok cfg = true ->
  up_create_stack cfg tcb1 r1 k1 w1 = (OK, w1', e1) ->
  up_create_stack cfg tcb2 r2 k2 w2 = (OK, w2', e2) ->
  effective_size cfg r1 = effective_size cfg r2 ->
  let B1 := stack_alloc_ptr (w_tcb w1') in
  let B2 := stack_alloc_ptr (w_tcb w2') in
  let S := effective_size cfg r1 in
  0 <= B1 -> 4 <= B1 + S -> B1 + S <= 2 ^ 32 ->
  0 <= B2 -> 4 <= B2 + S -> B2 + S <= 2 ^ 32 ->
  (B1 - B2) mod CONFIG_STACK_ALIGNMENT cfg = 0 ->
  adj_stack_size (w_tcb w1') = adj_stack_size (w_tcb w2')
  /\ adj_stack_ptr (w_tcb w1') - B1 = adj_stack_ptr (w_tcb w2') - B2.
Proof.
  intros Hok Hrun1 Hrun2 ES B1 B2 S HB1 Hlo1 Hhi1 HB2 Hlo2 Hhi2 Hcong.
  destruct (geometry_exact cfg tcb1 r1 k1 w1 w1' e1 Hok Hrun1 HB1 Hlo1 Hhi1)
    as (_ & _ & Hp1 & Hs1).
  assert (Hlo2' : 4 <= stack_alloc_ptr (w_tcb w2') + effective_size cfg r2)
    by (rewrite <- ES; exact Hlo2).
  assert (Hhi2' : stack_alloc_ptr (w_tcb w2') + effective_size cfg r2 <= 2 ^ 32)
    by (rewrite <- ES; exact Hhi2).
  destruct (geometry_exact cfg tcb2 r2 k2 w2 w2' e2 Hok Hrun2 HB2 Hlo2' Hhi2')
    as (_ & _ & Hp2 & Hs2).
  rewrite <- ES in Hp2, Hs2. fold B1 B2 S in Hp1, Hs1, Hp2, Hs2.
  assert (Em : (B1 + S - 4) mod CONFIG_STACK_ALIGNMENT cfg
               = (B2 + S - 4) mod CONFIG_STACK_ALIGNMENT cfg).
  { replace (B1 + S - 4) with ((B1 - B2) + (B2 + S - 4)) by lia.
    rewrite <- Z.add_mod_idemp_l, Hcong by (pose proof (alignment_pos cfg Hok); lia).
    reflexivity. }
  rewrite Hs1, Hs2, Hp1, Hp2, Em. split; [reflexivity|lia].
Qed.

End TwoBlocks.

Section Effects.

Context {heap : Type} {ext : Externals heap}.
Variable cfg : config.



(** Closes a goal about membership in a list of calls that is written
    out. *)
Ltac events_crush :=
  cbn [app In filter is_release length] in *;
  repeat split; intros;
  repeat match goal with
  | H : _ /\ _ |- _ => destruct H
  | H : _ \/ _ |- _ => destruct H
  | H : False |- _ => destruct H
  | H : @eq event _ _ |- _ => first [discriminate H | inversion H; clear H; subst]
  | H : @eq status _ _ |- _ => discriminate H
  end;
  subst; auto 8; try congruence; try tauto; try lia.

(** X11.  The diagnostics of a call: the LED event is signalled exactly
    when the call returns [OK], with [LED_STACKCREATED], and is then its
    last call; the debug log line is written exactly in a debug build when
    the call returns [ERROR], with the effective size; [up_release_stack]
    is called exactly when the TCB held a stack of another size, with the
    thread type of the call, and at most once. *)
Theorem create_stack_diagnostics tcb r k (w : world heap) :
  let S := effective_size cfg r in
  let t0 := w_tcb w in
  let '(st, w', evs) := up_create_stack cfg tcb r k w in
  (forall c, In (EvLed c) evs <-> st = OK /\ c = LED_STACKCREATED cfg)
  /\ (st = OK -> exists pre, evs = pre ++ [EvLed (LED_STACKCREATED cfg)])
  /\ (forall n, In (EvDebugLog n) evs
        <-> CONFIG_DEBUG cfg = true /\ st = ERROR /\ n = S)
  /\ (forall k', In (EvRelease k') evs
        <-> k' = k /\ stack_alloc_ptr t0 <> 0 /\ adj_stack_size t0 <> S)
  /\ (length (filter is_release evs) <= 1)%nat.
Proof.
  cbv zeta.
  destruct (up_create_stack cfg tcb r k w) as [[st w'] evs] eqn:Hrun.
  destruct (created_inv cfg tcb r k w w' st evs Hrun)
    as (w1 & e1 & w2 & e2 & Hrec & Hall & _ & _ & Hevs).
  (* the shapes of the three lists of calls *)
  assert (Ha : assert_events cfg r = [] \/ assert_events cfg r = [EvAssert]).
  { unfold assert_events. destruct (CONFIG_TLS cfg && _); auto. }
  assert (H1 : (e1 = [] /\ ~ (stack_alloc_ptr (w_tcb w) <> 0
                              /\ adj_stack_size (w_tcb w) <> effective_size cfg r))
               \/ (e1 = [EvRelease k] /\ stack_alloc_ptr (w_tcb w) <> 0
                   /\ adj_stack_size (w_tcb w) <> effective_size cfg r)).
  { destruct (reconciled_events _ _ _ _ _ Hrec) as [(-> & _ & Hn)|(-> & Hn & _)];
      unfold needs_release in Hn.
    - left. split; [reflexivity|]. intros [N1 N2].
      apply Z.eqb_neq in N1, N2. rewrite N1, N2 in Hn. discriminate.
    - right. apply andb_true_iff in Hn as [N1 N2].
      apply negb_true_iff in N1, N2. apply Z.eqb_neq in N1, N2. auto. }
  assert (H2 : (e2 = [] /\ stack_alloc_ptr (w_tcb w2) <> 0)
               \/ exists hp al p,
                    stack_alloc_ptr (w_tcb w2) = p
                    /\ ((p = 0 /\ CONFIG_DEBUG cfg = true
                         /\ e2 = [EvAlloc hp al (effective_size cfg r) p;
                                  EvDebugLog (effective_size cfg r)])
                        \/ ((p <> 0 \/ CONFIG_DEBUG cfg = false)
                            /\ e2 = [EvAlloc hp al (effective_size cfg r) p]))).
  { destruct (allocated_events cfg _ _ _ _ _ Hall)
      as [(-> & -> & N)|(p & log & -> & Hlog & _ & _ & Htcb & _)].
    - left. auto.
    - right. do 2 eexists. exists p. rewrite Htcb. split; [reflexivity|].
      subst log. destruct (CONFIG_DEBUG cfg); destruct (Z.eqb_spec p 0); cbn; auto. }
  clear Hrun Hrec Hall.
  destruct Hevs as [(-> & _ & Hz & ->)|(-> & Hnz & ->)].
  - (* ERROR: no stack is attached at return, the allocation gave null *)
    destruct H2 as [(_ & N)|(hp & al & p & Ep & H2)]; [contradiction|].
    assert (p = 0) by congruence. subst p.
    destruct Ha as [-> | ->], H1 as [(-> & N1)|(-> & N1 & N2)],
          H2 as [(_ & HD & ->)|([N|HD] & ->)];
      try contradiction; events_crush.
  - (* OK: the LED event closes the list *)
    split; [|split; [intros _; exists (assert_events cfg r ++ e1 ++ e2);
                     rewrite <- !app_assoc; reflexivity|]];
      destruct Ha as [-> | ->], H1 as [(-> & N1)|(-> & N1 & N2)],
            H2 as [(-> & _)|(hp & al & p & Ep & [(Z0 & _ & ->)|(_ & ->)])];
      try congruence; events_crush.
Qed.

End Effects.

Section Again.

Context {heap : Type} {ext : Externals heap}.
Variable cfg : config.

Lemma memset_agree n : forall m1 m2 s c x,
  m1 x = m2 x -> memset m1 s c n x = memset m2 s c n x.
Proof.
  induction n as [|n IH]; intros m1 m2 s c x E; [exact E|].
  cbn [memset]. apply IH. unfold store8. destruct (x =? s); [reflexivity|exact E].
Qed.

Lemma memset_inside n : forall m1 m2 s c x,
  s <= x < s + Z.of_nat n -> memset m1 s c n x = memset m2 s c n x.
Proof. intros m1 m2 s c x Hx. rewrite !memset_in by assumption. reflexivity. Qed.

(** Initializing the TLS structure again changes nothing. *)
Lemma tls_init_again tcb base m1 m2 x :
  m1 x = tls_init cfg tcb base m2 x ->
  tls_init cfg tcb base m1 x = tls_init cfg tcb base m2 x.
Proof.
  unfold tls_init. set (n := Z.to_nat (sizeof_tls_info_s cfg)).
  set (a := base + offsetof_tl_tcb cfg). intros E.
  destruct (Z_lt_le_dec x a) as [L|L];
    [|destruct (Z_lt_le_dec x (a + 4)) as [U|U]].
  - rewrite !store32_other in * by lia.
    destruct (Z_lt_le_dec x base) as [L1|L1];
      [|destruct (Z_lt_le_dec x (base + Z.of_nat n)) as [U1|U1]].
    + rewrite !memset_out in * by lia. exact E.
    + apply memset_inside. lia.
    + rewrite !memset_out in * by lia. exact E.
  - apply store32_inside. lia.
  - rewrite !store32_other in * by lia.
    destruct (Z_lt_le_dec x base) as [L1|L1];
      [|destruct (Z_lt_le_dec x (base + Z.of_nat n)) as [U1|U1]].
    + rewrite !memset_out in * by lia. exact E.
    + apply memset_inside. lia.
    + rewrite !memset_out in * by lia. exact E.
Qed.

Lemma instrumented_again tcb t m x :
  instrumented cfg tcb t (instrumented cfg tcb t m) x = instrumented cfg tcb t m x.
Proof.
  unfold instrumented.
  destruct (CONFIG_TLS cfg), (CONFIG_STACK_COLORATION cfg).
  - unfold up_stack_color.
    match goal with
    | |- color_loop _ ?n ?p _ _ = _ =>
        destruct (color_loop_shape cfg n p) as [W HW];
          [apply color_stkptr_aligned|]
    end.
    rewrite !HW. destruct (W x) eqn:EW; [reflexivity|].
    apply tls_init_again. rewrite HW, EW. reflexivity.
  - apply tls_init_again. reflexivity.
  - apply stack_color_again.
  - reflexivity.
Qed.

(** X12.  After a successful call that recorded the effective size, a
    second call with the same arguments leaves every byte of memory as the
    first call left it. *)
Theorem create_stack_twice_memory tcb r k (w w1 : world heap) e1 :
  up_create_stack cfg tcb r k w = (OK, w1, e1) ->
  adj_stack_size (w_tcb w1) = effective_size cfg r ->
  let '(st2, w2, e2) := up_create_stack cfg tcb r k w1 in
  forall x, w_mem w2 x = w_mem w1 x.
Proof.
  intros Hrun1 Heq.
  destruct (created_ok cfg _ _ _ _ _ _ Hrun1) as (Hnz & Hptr & Hsize).
  pose proof (created_mem cfg tcb r k w w1 e1 Hrun1) as Hm1.
  rewrite (kept_block cfg tcb r k w1 Hnz Heq). cbn [w_mem].
  intros x. rewrite <- Hsize, <- Hptr.
  replace (Build_tcb_s (stack_alloc_ptr (w_tcb w1)) (adj_stack_size (w_tcb w1))
             (adj_stack_ptr (w_tcb w1))) with (w_tcb w1)
    by (destruct (w_tcb w1); reflexivity).
  rewrite Hm1. apply instrumented_again.
Qed.


End Again.

(** ** The further theorems at the scenarios *)

Lemma STACK_ALIGN_DOWN_greatest_witness :
  alignment_ok eabi_build = true
  /\ 0 <= 0x200013FC < 2 ^ 32
  /\ STACK_ALIGN_DOWN eabi_build 0x200013FC mod 8 = 0
  /\ 0x200013FC - 8 < STACK_ALIGN_DOWN eabi_build 0x200013FC <= 0x200013FC.
Proof.
  assert (Hok : alignment_ok eabi_build = true) by reflexivity.
  assert (Ha : 0 <= 0x200013FC < 2 ^ 32) by lia.
  split; [exact Hok|]. split; [exact Ha|].
  destruct (STACK_ALIGN_DOWN_greatest eabi_build 0x200013FC Hok Ha) as (H0 & H1 & _).
  split; [exact H0|exact H1].
Defined.

Lemma STACK_ALIGN_UP_least_witness :
  alignment_ok eabi_build = true
  /\ 0 <= 0x200013F9 < 2 ^ 32
  /\ STACK_ALIGN_UP eabi_build 0x200013F9 mod 8 = 0
  /\ 0x200013F9 <= STACK_ALIGN_UP eabi_build 0x200013F9 < 0x200013F9 + 8.
Proof.
  assert (Hok : alignment_ok eabi_build = true) by reflexivity.
  assert (Ha : 0 <= 0x200013F9 < 2 ^ 32) by lia.
  split; [exact Hok|]. split; [exact Ha|].
  destruct (STACK_ALIGN_UP_least eabi_build 0x200013F9 Hok Ha) as [Hfit _].
  destruct Hfit as (H0 & H1 & _); [vm_compute; reflexivity|].
  split; [exact H0|exact H1].
Defined.

Lemma stack_color_within_region_witness :
  0 <= 0x20001000
  /\ 0 <= 18
  /\ 0x20001000 + 18 < 2 ^ 32
  /\ (0x20001000 mod 4 = 0 \/ 4 - 0x20001000 mod 4 <= 18)
  /\ load32 (up_stack_color eabi_build 0x20001000 18 zero_mem) 0x2000100C = 0xdeadbeef
  /\ up_stack_color eabi_build 0x20001000 18 zero_mem 0x20001012 = 0
  /\ color_nwords 0x20001000 18 = 4.
Proof.
  assert (Hb : 0 <= 0x20001000) by lia.
  assert (Hn : 0 <= 18) by lia.
  assert (Hhi : 0x20001000 + 18 < 2 ^ 32) by lia.
  assert (Hreach : 0x20001000 mod 4 = 0 \/ 4 - 0x20001000 mod 4 <= 18)
    by (left; reflexivity).
  split; [exact Hb|]. split; [exact Hn|]. split; [exact Hhi|]. split; [exact Hreach|].
  destruct (stack_color_within_region eabi_build 0x20001000 18 zero_mem
              Hb Hn Hhi Hreach) as (Hout & Hin & Hcount & _).
  split; [|split].
  - apply Hin; [reflexivity|lia|lia].
  - rewrite Hout by lia. reflexivity.
  - rewrite Hcount. reflexivity.
Defined.

Lemma create_stack_top_word_inside_witness :
  alignment_ok eabi_build = true
  /\ scenario1 = (OK, world_of scenario1, events_of scenario1)
  /\ 0 <= 0x20001000
  /\ 0x20001000 + 1024 <= 2 ^ 32
  /\ 8 + 3 <= 1024
  /\ 0x20001000 <= adj_stack_ptr (w_tcb (world_of scenario1))
  /\ adj_stack_ptr (w_tcb (world_of scenario1)) + 4 <= 0x20001000 + 1024
  /\ 1024 - 8 < adj_stack_size (w_tcb (world_of scenario1)) <= 1024.
Proof.
  assert (Hok : alignment_ok eabi_build = true) by reflexivity.
  assert (Hrun : up_create_stack eabi_build tcb_addr 1024 TCB_FLAG_TTYPE_TASK
                   (start no_stack [0x20001000])
                 = (OK, world_of scenario1, events_of scenario1))
    by (vm_compute; reflexivity).
  assert (HB : 0 <= 0x20001000) by lia.
  assert (Hhi : 0x20001000 + 1024 <= 2 ^ 32) by lia.
  assert (HS : 8 + 3 <= 1024) by lia.
  split; [exact Hok|]. split; [exact Hrun|]. split; [exact HB|].
  split; [exact Hhi|]. split; [exact HS|].
  destruct (create_stack_top_word_inside eabi_build _ _ _ _ _ _ Hok Hrun HB Hhi HS)
    as (H1 & H2 & _ & H4).
  split; [exact H1|]. split; [exact H2|exact H4].
Defined.

Lemma create_stack_undersized_witness :
  alignment_ok eabi_build = true
  /\ undersized = (OK, world_of undersized, events_of undersized)
  /\ 0 <= 2 < (0x20001000 + 2 - 4) mod 8
  /\ adj_stack_ptr (w_tcb (world_of undersized)) < 0x20001000 - 4
  /\ adj_stack_size (w_tcb (world_of undersized)) = 0xFFFFFFFC.
Proof.
  assert (Hok : alignment_ok eabi_build = true) by reflexivity.
  assert (Hrun : up_create_stack eabi_build tcb_addr 2 TCB_FLAG_TTYPE_TASK
                   (start no_stack [0x20001000])
                 = (OK, world_of undersized, events_of undersized))
    by (vm_compute; reflexivity).
  assert (HB : 0 <= 0x20001000) by lia.
  assert (Hlo : 4 <= 0x20001000 + 2) by lia.
  assert (Hhi : 0x20001000 + 2 <= 2 ^ 32) by lia.
  assert (Hm : 0 <= 2 < (0x20001000 + 2 - 4) mod 8) by (vm_compute; split; congruence).
  split; [exact Hok|]. split; [exact Hrun|]. split; [exact Hm|].
  destruct (create_stack_undersized eabi_build _ _ _ _ _ _ Hok Hrun HB Hlo Hhi Hm)
    as (H1 & H2 & _).
  split; [exact H1|]. rewrite H2. reflexivity.
Defined.

Lemma create_stack_size_by_alignment_witness :
  alignment_ok eabi_build = true
  /\ scenario1 = (OK, world_of scenario1, events_of scenario1)
  /\ scenario1_moved = (OK, world_of scenario1_moved, events_of scenario1_moved)
  /\ (0x20001000 - 0x20002000) mod 8 = 0
  /\ adj_stack_size (w_tcb (world_of scenario1))
     = adj_stack_size (w_tcb (world_of scenario1_moved)).
Proof.
  assert (Hok : alignment_ok eabi_build = true) by reflexivity.
  assert (Hrun1 : up_create_stack eabi_build tcb_addr 1024 TCB_FLAG_TTYPE_TASK
                    (start no_stack [0x20001000])
                  = (OK, world_of scenario1, events_of scenario1))
    by (vm_compute; reflexivity).
  assert (Hrun2 : up_create_stack eabi_build tcb_addr 1024 TCB_FLAG_TTYPE_TASK
                    (start no_stack [0x20002000])
                  = (OK, world_of scenario1_moved, events_of scenario1_moved))
    by (vm_compute; reflexivity).
  assert (Hc : (0x20001000 - 0x20002000) mod 8 = 0) by reflexivity.
  split; [exact Hok|]. split; [exact Hrun1|]. split; [exact Hrun2|]. split; [exact Hc|].
  refine (proj1 (create_stack_size_by_alignment eabi_build _ _ _ _ _ _ _ _ _ _ _ _
                   Hok Hrun1 Hrun2 eq_refl _ _ _ _ _ _ _));
    vm_compute; congruence.
Defined.



Lemma create_stack_twice_memory_witness :
  colored_first = (OK, world_of colored_first, events_of colored_first)
  /\ adj_stack_size (w_tcb (world_of colored_first)) = effective_size tls_color_build 1028
  /\ w_mem (world_of colored_second) 0x20002000
     = w_mem (world_of colored_first) 0x20002000.
Proof.
  assert (Hrun : up_create_stack tls_color_build tcb_addr 1028 TCB_FLAG_TTYPE_TASK
                   (start no_stack [0x20002000])
                 = (OK, world_of colored_first, events_of colored_first))
    by (vm_compute; reflexivity).
  assert (Hsz : adj_stack_size (w_tcb (world_of colored_first))
                = effective_size tls_color_build 1028) by (vm_compute; reflexivity).
  split; [exact Hrun|]. split; [exact Hsz|].
  pose proof (create_stack_twice_memory tls_color_build _ _ _ _ _ _ Hrun Hsz) as H.
  fold colored_second in H.
  rewrite (surjective_pairing colored_second) in H.
  rewrite (surjective_pairing (fst colored_second)) in H.
  apply H.
Defined.


(** The bases of two blocks need not agree modulo the alignment: 1024
    bytes are recorded as 1020 at [0x20001000] and as 1024 at
    [0x20001004]. *)
Example size_depends_on_base :
  adj_stack_size (w_tcb (world_of scenario1)) = 1020
  /\ adj_stack_size
       (w_tcb (world_of (up_create_stack eabi_build tcb_addr 1024 TCB_FLAG_TTYPE_TASK
                           (start no_stack [0x20001004])))) = 1024.
Proof. vm_compute. split; reflexivity. Qed.
